(** * s3-csv-viewer: a model of the retrieval pipeline

    The development embeds the two programs of the repository:

    - [src/extension.ts] (module [Extension]): the direct-locator command
      [openCsvFromS3], with [fetchCsvToTemp] and the auto-open at activation;
    - the bucket/key picker printed after the README (module [Picker]):
      [pickAndOpenS3File] and [openS3FileInEditor].

    Both share [runAwsCli] and [awsS3CpToFile], which are the same text in the
    two programs up to the helper [awsCmdName].

    Conventions.  A JavaScript string is a [string]: one [ascii] per code
    unit, which covers the code units below 256.  A [Buffer] chunk is a
    [list byte].  The host (VS Code, Node, the [aws] binary, the user) is a
    record of answers, [Host]; what the program does to the outside is kept
    in a [World]: the files of the temporary directory, the subprocesses it
    started and what it showed to the user.  An [async] function is a
    computation in the monad [M], whose outcomes are a returned value, a
    thrown error, or a promise that never settles. *)

From Stdlib Require Import ZArith NArith List String Ascii Strings.Byte.
From Stdlib Require Import Floats.PrimFloat.
From stdpp Require Import base option list gmap strings pretty.

Local Open Scope string_scope.

Set Warnings "-register-all".

(** ** JavaScript strings *)

Module JsString.

(** [s.startsWith(p)] *)
Fixpoint startsWith (p s : string) : bool :=
  match p, s with
  | EmptyString, _ => true
  | String a p', String b s' => if Ascii.eqb a b then startsWith p' s' else false
  | String _ _, EmptyString => false
  end.

(** White space and line terminators of ECMAScript among the code units
    below 256: TAB, LF, VT, FF, CR, SP and NBSP. *)
Definition isWhiteSpace (c : ascii) : bool :=
  let n := nat_of_ascii c in
  (Nat.leb 9 n && Nat.leb n 13) || Nat.eqb n 32 || Nat.eqb n 160.

Fixpoint trimStart (s : string) : string :=
  match s with
  | EmptyString => EmptyString
  | String c s' => if isWhiteSpace c then trimStart s' else s
  end.

(** [trimEnd] keeps a character when it is not white space or when
    something is kept after it. *)
Fixpoint trimEnd (s : string) : string :=
  match s with
  | EmptyString => EmptyString
  | String c s' =>
      match trimEnd s' with
      | EmptyString => if isWhiteSpace c then EmptyString else String c EmptyString
      | r => String c r
      end
  end.

(** [s.trim()] *)
Definition trim (s : string) : string := trimEnd (trimStart s).

Fixpoint whitespaceOnly (s : string) : bool :=
  match s with
  | EmptyString => true
  | String c s' => isWhiteSpace c && whitespaceOnly s'
  end.

(** Truthiness of a string, and of an optional string ([undefined] is
    falsy): [!!s]. *)
Definition nonEmpty (s : string) : bool :=
  match s with EmptyString => false | String _ _ => true end.

Definition truthy (o : option string) : bool :=
  match o with Some s => nonEmpty s | None => false end.

(** [a || b] on strings. *)
Definition orElse (a b : string) : string := if nonEmpty a then a else b.

End JsString.

(** ** [path.posix] and the decimal rendering of numbers *)

(** The programs call [path.basename] and [path.join] of Node's [path]
    module, which is [path.posix] everywhere but on Windows.  The model
    follows [path.posix]. *)

Module PosixPath.

Definition slash : ascii := "/"%char.
Definition isSlash (c : ascii) : bool := Ascii.eqb c slash.

(** [path.basename(p)]: Node scans [p] from its end, skips the slashes
    that end it, and keeps the characters down to the next slash.  On the
    reversed list of characters this is a [dropWhile] then a [takeWhile]. *)
Fixpoint dropSlashes (l : list ascii) : list ascii :=
  match l with
  | c :: l' => if isSlash c then dropSlashes l' else l
  | [] => []
  end.

Fixpoint takeSegment (l : list ascii) : list ascii :=
  match l with
  | c :: l' => if isSlash c then [] else c :: takeSegment l'
  | [] => []
  end.

Definition basename (p : string) : string :=
  string_of_list_ascii
    (rev (takeSegment (dropSlashes (rev (list_ascii_of_string p))))).

(** The segments of a path: the runs of characters between slashes, empty
    ones included. *)
Fixpoint segments_go (cur : list ascii) (l : list ascii) : list string :=
  match l with
  | [] => [string_of_list_ascii (rev cur)]
  | c :: l' =>
      if isSlash c then string_of_list_ascii (rev cur) :: segments_go [] l'
      else segments_go (c :: cur) l'
  end.

Definition segments (p : string) : list string :=
  segments_go [] (list_ascii_of_string p).

(** [normalizeString]: the stack of kept segments, the last one first.
    An empty segment and ["."] are skipped; [".."] removes the segment on
    top unless there is none or it is [".."], in which case it is kept
    when the path is relative ([allowAboveRoot]) and dropped otherwise. *)
Definition pushSegment (allowAboveRoot : bool) (st : list string) (seg : string)
  : list string :=
  if decide (seg = "" ∨ seg = ".") then st
  else if decide (seg = "..") then
    match st with
    | top :: st' =>
        if decide (top = "..") then
          (if allowAboveRoot then seg :: st else st)
        else st'
    | [] => if allowAboveRoot then [seg] else []
    end
  else seg :: st.

Definition normalizeStack (allowAboveRoot : bool) (segs : list string) : list string :=
  fold_left (pushSegment allowAboveRoot) segs [].

Fixpoint joinWith (sep : string) (l : list string) : string :=
  match l with
  | [] => ""
  | [x] => x
  | x :: l' => x +:+ sep +:+ joinWith sep l'
  end.

Definition isAbsolute (p : string) : bool := JsString.startsWith "/" p.

Definition endsWithSlash (p : string) : bool :=
  match rev (list_ascii_of_string p) with
  | c :: _ => isSlash c
  | [] => false
  end.

(** [path.normalize(p)] *)
Definition normalize (p : string) : string :=
  match p with
  | EmptyString => "."
  | _ =>
      let abs := isAbsolute p in
      let trailing := endsWithSlash p in
      let res := joinWith "/" (rev (normalizeStack (negb abs) (segments p))) in
      match res with
      | EmptyString => if abs then "/" else if trailing then "./" else "."
      | _ =>
          let res := if trailing then res +:+ "/" else res in
          if abs then "/" +:+ res else res
      end
  end.

(** [path.join(a, b)]: the non-empty arguments joined by a slash, then
    normalized. *)
Definition join (a b : string) : string :=
  match JsString.nonEmpty a, JsString.nonEmpty b with
  | false, false => "."
  | true, false => normalize a
  | false, true => normalize b
  | true, true => normalize (a +:+ "/" +:+ b)
  end.

End PosixPath.

(** [`${n}`] for a non-negative integer below 10^21, such as [Date.now()],
  and for an exit code. *)
Definition decimal (n : N) : string := pretty n.

Definition decimalZ (z : Z) : string := pretty z.


(** ** JavaScript values decoded from JSON *)

Module Js.

Inductive value : Type :=
| Undefined
| Null
| Bool (b : bool)
| Number (x : float)
| Str (s : string)
| Array (items : list value)
| Object (fields : list (string * value)).

(** [!!v]: a number is falsy when it is a zero or NaN; arrays and objects
    are truthy, the empty ones included. *)
Definition truthy (v : value) : bool :=
  match v with
  | Undefined | Null => false
  | Bool b => b
  | Number x => negb (PrimFloat.eqb x 0 || negb (PrimFloat.eqb x x))
  | Str s => JsString.nonEmpty s
  | Array _ | Object _ => true
  end.

(** [a || b] *)
Definition orElse (a b : value) : value := if truthy a then a else b.

Fixpoint lookupField (name : string) (fields : list (string * value)) : value :=
  match fields with
  | [] => Undefined
  | (k, v) :: rest => if String.eqb k name then v else lookupField name rest
  end.

(** What [typeof]-like word V8 prints in its messages for the two values
    that have no properties. *)
Definition nullish (v : value) : option string :=
  match v with
  | Undefined => Some "undefined"
  | Null => Some "null"
  | _ => None
  end.

End Js.

(** ** Errors and outcomes *)

(** A thrown value.  Every value the two programs throw or catch is an
    [Error] object; only its [message] is ever read. *)
Inductive JsError : Type := Error (message : string).

Definition message (e : JsError) : string := let 'Error m := e in m.

(** V8's message for a property read on [undefined] or [null]. *)
Definition cannotRead (what prop : string) : JsError :=
  Error ("Cannot read properties of " +:+ what +:+ " (reading '" +:+ prop +:+ "')").

(** The result of awaiting a promise: fulfilled, rejected, or never
    settled. *)
Inductive Outcome (A : Type) : Type :=
| Returned (a : A)
| Thrown (e : JsError)
| Pending.

Arguments Returned {A} a.
Arguments Thrown {A} e.
Arguments Pending {A}.

(** ** The world the programs act on *)

(** One started subprocess: the command, its arguments and the environment
    it was given ([{ ...process.env, ...envExtras }]). *)
Record SpawnCall : Type := mkSpawn {
  sc_command : string;
  sc_args : list string;
  sc_env : gmap string string
}.

Inductive UiEvent : Type :=
| InputBoxShown
| QuickPickShown (items : list Js.value) (placeHolder : string)
| DocumentOpened (path : string)
| DocumentShown (path : string)
| LanguageSet (path languageId : string)
| StatusBarMessage (text : string) (hideAfter : N)
| ErrorMessage (text : string).

Record World : Type := mkWorld {
  files : gmap string (list byte);   (* the file system, by path *)
  spawned : list SpawnCall;          (* subprocesses started, oldest first *)
  killed : list string;              (* signals sent to children *)
  ui : list UiEvent;                 (* what was shown to the user, oldest first *)
  commands : list string             (* registered command ids *)
}.

Definition setFiles (f : gmap string (list byte)) (w : World) : World :=
  mkWorld f (spawned w) (killed w) (ui w) (commands w).

Definition logSpawn (c : SpawnCall) (w : World) : World :=
  mkWorld (files w) (spawned w ++ [c])%list (killed w) (ui w) (commands w).

Definition logKill (signal : string) (w : World) : World :=
  mkWorld (files w) (spawned w) (killed w ++ [signal])%list (ui w) (commands w).

Definition logUi (e : UiEvent) (w : World) : World :=
  mkWorld (files w) (spawned w) (killed w) (ui w ++ [e])%list (commands w).

Definition logCommand (id : string) (w : World) : World :=
  mkWorld (files w) (spawned w) (killed w) (ui w) (commands w ++ [id])%list.

(** What the event loop delivers to the handlers [awsS3CpToFile] installs,
    in the order of delivery. *)
Inductive ChildEvent : Type :=
| StdoutData (chunk : list byte)   (* a chunk read from the child's stdout pipe *)
| StderrData (text : string)       (* ['data'] on [child.stderr] *)
| OutError (msg : string)          (* ['error'] on the write stream *)
| OutClose                         (* ['close'] on the write stream *)
| ChildError (msg : string)        (* ['error'] on the child (it could not be spawned) *)
| ChildClose (code : option Z).    (* ['close']: the exit code, [null] after a signal *)

(** The callback arguments of [execFile]. *)
Record ExecResult : Type := mkExec {
  exec_error : option string;   (* [error.message] when [error] is not null *)
  exec_stdout : string;
  exec_stderr : string
}.

(** The settings under [s3CsvViewer]; [None] is a setting that is not set.
    A setting holds a value of the type the two programs read it at
    ([cfg.get<string>], [cfg.get<boolean>]).  [cfg.get] converts nothing: on
    a setting of another type [?.trim()] would throw before the [try] of
    [openCsvFromS3] and of [pickAndOpenS3File]; what is proved of the two
    commands is proved for settings of the declared types. *)
Record Config : Type := mkConfig {
  s3Uri : option string;
  awsProfile : option string;
  awsRegion : option string;
  autoOpenOnStartup : option bool
}.

(** Everything the programs ask of their surroundings. *)
Record Host : Type := mkHost {
  platform : string;                         (* [process.platform] *)
  environ : gmap string string;              (* [process.env] *)
  tmpdir : string;                           (* [os.tmpdir()] *)
  now : N;                                   (* [Date.now()] *)
  config : Config;
  (* how the child started by [spawn] behaves *)
  childEvents : string -> list string -> gmap string string -> list ChildEvent;
  (* how the child run by [execFile] ends *)
  execFileResult : string -> list string -> gmap string string -> ExecResult;
  JSON_parse : string -> JsError + Js.value;
  showInputBox : Outcome (option string);    (* [undefined] when dismissed *)
  (* [showQuickPick(items, { placeHolder })]: [undefined] when dismissed *)
  showQuickPick : list Js.value -> string -> Outcome (option string);
  (* [openTextDocument]: the [languageId] of the document opened on a file *)
  openTextDocument : string -> option (list byte) -> JsError + string;
  (* [showTextDocument], by the path of the document *)
  showTextDocument : string -> JsError + unit;
  (* [setTextDocumentLanguage], by the path of the document and the language *)
  setTextDocumentLanguage : string -> string -> JsError + unit
}.

(** ** The monad of asynchronous computations *)

Definition M (A : Type) : Type := World -> Outcome A * World.

Definition ret {A} (a : A) : M A := fun w => (Returned a, w).

Definition throw {A} (e : JsError) : M A := fun w => (Thrown e, w).

Definition bind {A B} (m : M A) (k : A -> M B) : M B :=
  fun w =>
    match m w with
    | (Returned a, w') => k a w'
    | (Thrown e, w') => (Thrown e, w')
    | (Pending, w') => (Pending, w')
    end.

(** [try { m } catch (e) { handler e }] *)
Definition tryCatch {A} (m : M A) (handler : JsError -> M A) : M A :=
  fun w =>
    match m w with
    | (Thrown e, w') => handler e w'
    | r => r
    end.

Definition effect (f : World -> World) : M unit := fun w => (Returned tt, f w).

Definition await {A} (o : Outcome A) : M A := fun w => (o, w).

Definition orThrow {A} (r : JsError + A) : M A :=
  match r with
  | inl e => throw e
  | inr a => ret a
  end.

Declare Scope async_scope.
Delimit Scope async_scope with async.
Notation "x <- m ;; k" := (bind m (fun x => k))
  (at level 100, m at next level, right associativity) : async_scope.
Notation "m ;;; k" := (bind m (fun _ => k))
  (at level 100, right associativity) : async_scope.
Local Open Scope async_scope.

(** ** The process runner, shared by the two programs *)

Section Runner.

Variable h : Host.

(** [process.platform === "win32" ? "aws.exe" : "aws"] *)
Definition awsCmdName : string :=
  if String.eqb (platform h) "win32" then "aws.exe" else "aws".

(** [{ ...process.env, ...envExtras }]: the override wins. *)
Definition mergedEnv (envExtras : gmap string string) : gmap string string :=
  envExtras ∪ environ h.

(** [runAwsCli(args, envExtras)]: the buffered run through [execFile]. *)
Definition runAwsCli (args : list string) (envExtras : gmap string string) : M string :=
  let env := mergedEnv envExtras in
  effect (logSpawn (mkSpawn awsCmdName args env)) ;;;
  let r := execFileResult h awsCmdName args env in
  match exec_error r with
  | Some msg =>
      throw (Error ("AWS CLI error: " +:+ msg +:+ String "010" "STDERR: " +:+ exec_stderr r))
  | None => ret (exec_stdout r)
  end.

(** The state of one transfer between two events: the text gathered from
    stderr; how the promise was settled, if it was; the exit code of the
    child's ['close'] while the callback given to [out.close] waits for the
    stream to close; whether the write stream has failed, and whether it has
    closed. *)
Record Transfer : Type := mkTransfer {
  stderrBuf : string;
  settled : option (JsError + unit);
  exitCode : option (option Z);
  outFailed : bool;
  outClosed : bool
}.

(** The state when the handlers are installed. *)
Definition newTransfer : Transfer := mkTransfer "" None None false false.

(** [resolve()] and [reject(err)]: a promise settles once, later calls
    change nothing. *)
Definition settle (r : JsError + unit) (t : Transfer) : Transfer :=
  match settled t with
  | Some _ => t
  | None => mkTransfer (stderrBuf t) (Some r) (exitCode t) (outFailed t) (outClosed t)
  end.

(** [`${code}`] *)
Definition codeText (code : option Z) : string :=
  match code with
  | Some c => decimalZ c
  | None => "null"
  end.

(** The callback given to [out.close]:
    [if (code === 0) resolve(); else reject(new Error(...))]. *)
Definition closeCallback (code : option Z) (t : Transfer) : Transfer :=
  if decide (code = Some 0%Z) then settle (inr tt) t
  else
    settle
      (inl (Error ("AWS CLI exited with code " +:+ codeText code +:+ ": "
                   +:+ JsString.trim (stderrBuf t)))) t.

(** [out.write(chunk)] as the pipe does it: the bytes are added to the
    file the stream has open. *)
Definition writeChunk (destPath : string) (chunk : list byte) (w : World) : World :=
  setFiles (alter (fun content => (content ++ chunk)%list) destPath (files w)) w.

(** The pipe writes to the stream until the stream is ended, fails or
    closes. *)
Definition writable (t : Transfer) : bool :=
  match exitCode t with
  | Some _ => false
  | None => negb (outFailed t || outClosed t)
  end.

(** One event, handled by the callback registered for it.  The child's
    ['close'] settles nothing by itself: it calls [out.close(cb)], and [cb]
    runs when the stream closes, or at once when it is closed already; an
    error of the stream in between rejects first. *)
Definition onEvent (destPath : string) (ev : ChildEvent) (t : Transfer) (w : World)
  : Transfer * World :=
  match ev with
  | StdoutData chunk =>
      if writable t then (t, writeChunk destPath chunk w) else (t, w)
  | StderrData d =>
      (mkTransfer (stderrBuf t +:+ d) (settled t) (exitCode t) (outFailed t) (outClosed t), w)
  | OutError msg =>
      (settle (inl (Error msg))
         (mkTransfer (stderrBuf t) (settled t) (exitCode t) true (outClosed t)),
       logKill "SIGKILL" w)
  | OutClose =>
      let t' := mkTransfer (stderrBuf t) (settled t) (exitCode t) (outFailed t) true in
      match exitCode t with
      | Some code => (closeCallback code t', w)
      | None => (t', w)
      end
  | ChildError msg => (settle (inl (Error msg)) t, w)
  | ChildClose code =>
      if outClosed t then (closeCallback code t, w)
      else
        match exitCode t with
        | Some _ => (t, w)
        | None =>
            (mkTransfer (stderrBuf t) (settled t) (Some code) (outFailed t) (outClosed t), w)
        end
  end.

(** The handlers stay installed for the whole transfer: every event is
    handled, in order, also after the promise has settled. *)
Fixpoint handle (destPath : string) (evs : list ChildEvent) (t : Transfer) (w : World)
  : Transfer * World :=
  match evs with
  | [] => (t, w)
  | ev :: rest =>
      let '(t', w') := onEvent destPath ev t w in
      handle destPath rest t' w'
  end.

(** What the caller that awaits the promise gets. *)
Definition outcomeOf (t : Transfer) : Outcome unit :=
  match settled t with
  | Some (inr _) => Returned tt
  | Some (inl e) => Thrown e
  | None => Pending
  end.

(** The transfer as a whole: the outcome is the first settlement, and the
    promise stays pending when no handler settles it.  The world is the one
    the handlers leave after the last event.  After a settlement by the
    callback of [out.close] or by the stream's error nothing more is written
    to the file; what a handler may still do after the settlement is to
    write data that follows an error of the child, and [child.kill] on a late
    error of the stream: both are kept on record with the transfer. *)
Definition deliver (destPath : string) (evs : list ChildEvent) (t : Transfer) (w : World)
  : Outcome unit * World :=
  let '(t', w') := handle destPath evs t w in
  (outcomeOf t', w').

(** [fss.createWriteStream(destPath)]: the file is created, or emptied when
    it exists.  Node opens the file in the background; the model takes it to
    be there from this call on, so that [OutError] stands for a write that
    failed on the open file. *)
Definition createWriteStream (destPath : string) (w : World) : World :=
  setFiles (<[destPath := []]> (files w)) w.

(** The arguments of the copy to stdout. *)
Definition cpArgs (s3Uri : string) : list string :=
  ["s3"; "cp"; s3Uri; "-"; "--no-progress"; "--only-show-errors"].

(** The subprocess [awsS3CpToFile] starts. *)
Definition cpCall (s3Uri : string) (envExtras : gmap string string) : SpawnCall :=
  mkSpawn awsCmdName (cpArgs s3Uri) (mergedEnv envExtras).

(** [awsS3CpToFile(s3Uri, destPath, envExtras)] *)
Definition awsS3CpToFile (s3Uri destPath : string) (envExtras : gmap string string)
  : M unit :=
  let args := cpArgs s3Uri in
  let env := mergedEnv envExtras in
  effect (logSpawn (mkSpawn awsCmdName args env)) ;;;
  effect (createWriteStream destPath) ;;;
  deliver destPath (childEvents h awsCmdName args env) newTransfer.

(** [fs.unlink(path)]: removes the file, and fails when there is none. *)
Definition unlink (path : string) : M unit :=
  fun w =>
    match files w !! path with
    | Some _ => (Returned tt, setFiles (delete path (files w)) w)
    | None =>
        (Thrown (Error ("ENOENT: no such file or directory, unlink '" +:+ path +:+ "'")), w)
    end.

(** The environment overrides built from the optional profile and region:
    [if (profile) envExtras.AWS_PROFILE = profile], then the same for the
    region. *)
Definition envExtrasOf (profile region : option string) : gmap string string :=
  let e0 : gmap string string := ∅ in
  let e1 :=
    match profile with
    | Some p => if JsString.nonEmpty p then <["AWS_PROFILE" := p]> e0 else e0
    | None => e0
    end in
  match region with
  | Some r => if JsString.nonEmpty r then <["AWS_REGION" := r]> e1 else e1
  | None => e1
  end.

(** [vscode.workspace.openTextDocument(vscode.Uri.file(path))] *)
Definition openDocument (path : string) : M string :=
  fun w =>
    match openTextDocument h path (files w !! path) with
    | inl e => (Thrown e, w)
    | inr languageId => (Returned languageId, logUi (DocumentOpened path) w)
    end.

(** [vscode.window.showTextDocument(doc, { preview: false })] *)
Definition showDocument (path : string) : M unit :=
  match showTextDocument h path with
  | inl e => throw e
  | inr _ => effect (logUi (DocumentShown path))
  end.

(** [vscode.languages.setTextDocumentLanguage(doc, languageId)] *)
Definition setLanguage (path languageId : string) : M unit :=
  match setTextDocumentLanguage h path languageId with
  | inl e => throw e
  | inr _ => effect (logUi (LanguageSet path languageId))
  end.

End Runner.

(** ** [src/extension.ts] *)

Module Extension.

Section WithHost.

Variable h : Host.

Definition invalidUriMessage : string :=
  "Please provide a valid S3 URI (e.g., s3://bucket/key.csv).".

(** [!s3Uri || !s3Uri.startsWith("s3://")] *)
Definition rejected (s3Uri : string) : bool :=
  negb (JsString.nonEmpty s3Uri) || negb (JsString.startsWith "s3://" s3Uri).

(** [path.basename(s3Uri) || "s3.csv"] *)
Definition fileName (s3Uri : string) : string :=
  JsString.orElse (PosixPath.basename s3Uri) "s3.csv".

(** [path.join(os.tmpdir(), `s3-csv-viewer-${Date.now()}-${fileName}`)] *)
Definition tmpPath (s3Uri : string) : string :=
  PosixPath.join (tmpdir h)
    ("s3-csv-viewer-" +:+ decimal (now h) +:+ "-" +:+ fileName s3Uri).

(** [fetchCsvToTemp(s3Uri, profile, region)] *)
Definition fetchCsvToTemp (s3Uri : string) (profile region : option string) : M string :=
  if rejected s3Uri then throw (Error invalidUriMessage)
  else
    let envExtras := envExtrasOf profile region in
    let tmpPath := tmpPath s3Uri in
    tryCatch
      (awsS3CpToFile h s3Uri tmpPath envExtras ;;; ret tmpPath)
      (fun e =>
         tryCatch (unlink tmpPath) (fun _ => ret tt) ;;;
         throw e).

(** [cfg.get<string>(key)?.trim() || ""] *)
Definition trimmedSetting (setting : option string) : string :=
  match setting with
  | Some s => JsString.orElse (JsString.trim s) ""
  | None => ""
  end.

Definition configuredUri : string := trimmedSetting (s3Uri (config h)).
Definition profile : string := trimmedSetting (awsProfile (config h)).
Definition region : string := trimmedSetting (awsRegion (config h)).

(** [uriFromInput || configuredUri || (await vscode.window.showInputBox(..))]:
    the input box is shown only when the two before it are empty. *)
Definition resolveUri (uriFromInput : option string) : M (option string) :=
  if JsString.truthy uriFromInput then ret uriFromInput
  else if JsString.nonEmpty configuredUri then ret (Some configuredUri)
  else effect (logUi InputBoxShown) ;;; await (showInputBox h).

(** The body of the [try] of [openCsvFromS3]. *)
Definition loadAndShow (s3Uri : string) : M unit :=
  tmpPath <- fetchCsvToTemp s3Uri (Some profile) (Some region) ;;
  languageId <- openDocument h tmpPath ;;
  showDocument h tmpPath ;;;
  (if String.eqb languageId "csv" then ret tt
   else setLanguage h tmpPath "csv") ;;;
  effect (logUi (StatusBarMessage ("S3 CSV loaded: " +:+ s3Uri) 5000)).

(** [openCsvFromS3(context, uriFromInput)] *)
Definition openCsvFromS3 (uriFromInput : option string) : M unit :=
  s3Uri <- resolveUri uriFromInput ;;
  match s3Uri with
  | None => ret tt
  | Some s3Uri =>
      if negb (JsString.nonEmpty s3Uri) then ret tt
      else
        tryCatch (loadAndShow s3Uri)
          (fun err => effect (logUi (ErrorMessage ("Failed to load CSV. " +:+ message err))))
  end.

Definition commandId : string := "s3CsvViewer.openCsvFromS3".

(** [p.catch(() => {})] on a promise the caller does not await: whatever
    the outcome, the caller goes on. *)
Definition ignoreOutcome {A} (m : M A) : M unit :=
  fun w => (Returned tt, snd (m w)).

(** [activate(context)] *)
Definition activate : M unit :=
  effect (logCommand commandId) ;;;
  match autoOpenOnStartup (config h) with
  | Some true => ignoreOutcome (openCsvFromS3 None)
  | _ => ret tt
  end.

End WithHost.

End Extension.

(** ** The picker program (the second listing of [src/README.md]) *)

Module Picker.

Section WithHost.

Variable h : Host.

(** [openS3FileInEditor(s3Uri, profile, region)] *)
Definition openS3FileInEditor (s3Uri : string) (profile region : option string) : M unit :=
  let envExtras := envExtrasOf profile region in
  let fileName := PosixPath.basename s3Uri in
  let tmpPath :=
    PosixPath.join (tmpdir h) ("s3-viewer-" +:+ decimal (now h) +:+ "-" +:+ fileName) in
  awsS3CpToFile h s3Uri tmpPath envExtras ;;;
  _ <- openDocument h tmpPath ;;
  showDocument h tmpPath ;;;
  effect (logUi (StatusBarMessage ("S3 File loaded: " +:+ s3Uri) 5000)).

(** [cfg.get<string>(key)?.trim()] *)
Definition trimmedSetting (setting : option string) : option string :=
  JsString.trim <$> setting.

(** [o.name] for one of the names the program reads ([Buckets], [Name],
    [Contents], [Key]).  None of these names is a property of arrays,
    strings, numbers or booleans, on which the read gives [undefined]. *)
Definition getField (o : Js.value) (name : string) : M Js.value :=
  match o with
  | Js.Object fields => ret (Js.lookupField name fields)
  | Js.Undefined => throw (cannotRead "undefined" name)
  | Js.Null => throw (cannotRead "null" name)
  | _ => ret Js.Undefined
  end.

Fixpoint mapField (name : string) (items : list Js.value) : M (list Js.value) :=
  match items with
  | [] => ret []
  | o :: rest =>
      v <- getField o name ;;
      vs <- mapField name rest ;;
      ret (v :: vs)
  end.

(** [a.map((o) => o.name)]; [what] is how the program spells [a]. *)
Definition mapOver (what : string) (a : Js.value) (name : string) : M (list Js.value) :=
  match a with
  | Js.Array items => mapField name items
  | Js.Undefined => throw (cannotRead "undefined" "map")
  | Js.Null => throw (cannotRead "null" "map")
  | _ => throw (Error (what +:+ ".map is not a function"))
  end.

(** [dataBuckets.Buckets.map((b) => b.Name)] *)
Definition bucketNames (dataBuckets : Js.value) : M (list Js.value) :=
  bs <- getField dataBuckets "Buckets" ;;
  mapOver "dataBuckets.Buckets" bs "Name".

(** [(dataObjs.Contents || []).map((o) => o.Key)] *)
Definition objectKeys (dataObjs : Js.value) : M (list Js.value) :=
  cs <- getField dataObjs "Contents" ;;
  mapOver "(dataObjs.Contents || [])" (Js.orElse cs (Js.Array [])) "Key".

(** The list-keys query of [pickAndOpenS3File]: run, decode, extract. *)
Definition listKeys (bucket : string) (env : gmap string string) : M (list Js.value) :=
  rawObjs <- runAwsCli h ["s3api"; "list-objects-v2"; "--bucket"; bucket; "--output"; "json"] env ;;
  dataObjs <- orThrow (JSON_parse h rawObjs) ;;
  objectKeys dataObjs.

(** The list-buckets query of [pickAndOpenS3File]. *)
Definition listBuckets (env : gmap string string) : M (list Js.value) :=
  rawBuckets <- runAwsCli h ["s3api"; "list-buckets"; "--output"; "json"] env ;;
  dataBuckets <- orThrow (JSON_parse h rawBuckets) ;;
  bucketNames dataBuckets.

Definition quickPick (items : list Js.value) (placeHolder : string) : M (option string) :=
  effect (logUi (QuickPickShown items placeHolder)) ;;;
  await (showQuickPick h items placeHolder).

(** [pickAndOpenS3File(context)] *)
Definition pickAndOpenS3File : M unit :=
  let profile := trimmedSetting (awsProfile (config h)) in
  let region := trimmedSetting (awsRegion (config h)) in
  let env := envExtrasOf profile region in
  tryCatch
    (buckets <- listBuckets env ;;
     bucket <- quickPick buckets "Select an S3 bucket" ;;
     if negb (JsString.truthy bucket) then ret tt
     else
       let bucket := default "" bucket in
       keys <- listKeys bucket env ;;
       key <- quickPick keys ("Select file from " +:+ bucket) ;;
       if negb (JsString.truthy key) then ret tt
       else
         let key := default "" key in
         let s3Uri := "s3://" +:+ bucket +:+ "/" +:+ key in
         openS3FileInEditor s3Uri profile region)
    (fun err => effect (logUi (ErrorMessage ("Error: " +:+ message err)))).

Definition commandId : string := "s3CsvViewer.openCsvFromS3".

(** [activate(context)] *)
Definition activate : M unit := effect (logCommand commandId).

End WithHost.

End Picker.

(** ** Hosts and worlds for the examples *)

Module Demo.

Definition emptyWorld : World := mkWorld ∅ [] [] [] [].

Definition noConfig : Config := mkConfig None None None None.

Definition bytes (s : string) : list byte := list_byte_of_string s.

Definition newline : string := String "010" "".

(** A child that writes [a,b], complains and exits with code 2; the write
    stream closes after it. *)
Definition accessDenied : list ChildEvent :=
  [StdoutData (bytes "a,b"); StderrData "Access Denied"; ChildClose (Some 2%Z); OutClose].

(** A child that writes the two lines of a table in two chunks and exits
    with code 0; the write stream closes after it. *)
Definition twoChunks : list ChildEvent :=
  [StdoutData (bytes ("a,b" +:+ newline)); StderrData "";
   StdoutData (bytes ("1,2" +:+ newline)); ChildClose (Some 0%Z); OutClose].

Definition quoted (s : string) : string := String "034" (s +:+ String "034" "").

(** The output of [list-buckets] for the buckets [a] and [b]. *)
Definition bucketsJson : string :=
  "{" +:+ quoted "Buckets" +:+ ":[{" +:+ quoted "Name" +:+ ":" +:+ quoted "a"
  +:+ "},{" +:+ quoted "Name" +:+ ":" +:+ quoted "b" +:+ "}]}".

Definition bucketsValue : Js.value :=
  Js.Object [("Buckets", Js.Array [Js.Object [("Name", Js.Str "a")];
                                   Js.Object [("Name", Js.Str "b")]])].

(** The output of [list-objects-v2] for a bucket that holds [x.csv]. *)
Definition objectsJson : string :=
  "{" +:+ quoted "Contents" +:+ ":[{" +:+ quoted "Key" +:+ ":" +:+ quoted "x.csv" +:+ "}]}".

Definition objectsValue : Js.value :=
  Js.Object [("Contents", Js.Array [Js.Object [("Key", Js.Str "x.csv")]])].

(** The output of [list-objects-v2] for a bucket without objects. *)
Definition noObjectsJson : string := "{" +:+ quoted "RequestCharged" +:+ ":null}".

Definition noObjectsValue : Js.value := Js.Object [("RequestCharged", Js.Null)].

(** The decoder on the three texts above; everything else is refused. *)
Definition parse (text : string) : JsError + Js.value :=
  if String.eqb text bucketsJson then inr bucketsValue
  else if String.eqb text objectsJson then inr objectsValue
  else if String.eqb text noObjectsJson then inr noObjectsValue
  else inl (Error "Unexpected token").

(** How the user answers a quick pick: by position in the list, or by
    dismissing it. *)
Definition pickNth (n : option nat) (items : list Js.value) : Outcome (option string) :=
  match n with
  | None => Returned None
  | Some i =>
      match items !! i with
      | Some (Js.Str s) => Returned (Some s)
      | _ => Returned None
      end
  end.

(** A Linux host with [/tmp] as temporary directory.  [objects] is what
    [list-objects-v2] prints; the user picks the bucket at position
    [bucketChoice] and the key at position [keyChoice]. *)
Definition host (cfg : Config) (entered : Outcome (option string))
    (events : list ChildEvent) (objects : string)
    (bucketChoice keyChoice : option nat) : Host :=
  {| platform := "linux";
     environ := {[ "HOME" := "/home/u" ]};
     tmpdir := "/tmp";
     now := 1700000000000;
     config := cfg;
     childEvents := fun _ _ _ => events;
     execFileResult := fun _ args _ =>
       if decide (args = ["s3api"; "list-buckets"; "--output"; "json"])
       then mkExec None bucketsJson ""
       else mkExec None objects "";
     JSON_parse := parse;
     showInputBox := entered;
     showQuickPick := fun items placeHolder =>
       if String.eqb placeHolder "Select an S3 bucket" then pickNth bucketChoice items
       else pickNth keyChoice items;
     openTextDocument := fun path content =>
       match content with
       | Some _ => inr "plaintext"
       | None => inl (Error ("cannot open " +:+ path))
       end;
     showTextDocument := fun _ => inr tt;
     setTextDocumentLanguage := fun _ _ => inr tt |}.

(** The direct command with nothing configured and nothing entered. *)
Definition plainHost (events : list ChildEvent) : Host :=
  host noConfig (Returned None) events "" None None.

End Demo.

(** ** Traces of a transfer *)

(** Data events: a chunk on stdout or text on stderr. *)
Definition isData (ev : ChildEvent) : bool :=
  match ev with
  | StdoutData _ | StderrData _ => true
  | _ => false
  end.

Definition isStderr (ev : ChildEvent) : bool :=
  match ev with
  | StderrData _ => true
  | _ => false
  end.

Definition isOutError (ev : ChildEvent) : bool :=
  match ev with
  | OutError _ => true
  | _ => false
  end.

Definition isOutClose (ev : ChildEvent) : bool :=
  match ev with
  | OutClose => true
  | _ => false
  end.

Definition isChildClose (ev : ChildEvent) : bool :=
  match ev with
  | ChildClose _ => true
  | _ => false
  end.

(** The child's close with the given exit code. *)
Definition isCloseWith (code : option Z) (ev : ChildEvent) : bool :=
  match ev with
  | ChildClose c => bool_decide (c = code)
  | _ => false
  end.

(** The message of an error event: the write stream failed, or the child
    could not be spawned. *)
Definition errorOf (ev : ChildEvent) : option string :=
  match ev with
  | OutError msg | ChildError msg => Some msg
  | _ => None
  end.

(** The bytes the child wrote to its stdout pipe, in order. *)
Fixpoint stdoutBytes (evs : list ChildEvent) : list byte :=
  match evs with
  | [] => []
  | StdoutData chunk :: rest => (chunk ++ stdoutBytes rest)%list
  | _ :: rest => stdoutBytes rest
  end.

(** The text the child wrote to stderr. *)
Fixpoint stderrText (evs : list ChildEvent) : string :=
  match evs with
  | [] => ""
  | StderrData d :: rest => d +:+ stderrText rest
  | _ :: rest => stderrText rest
  end.

Definition isError (ev : ChildEvent) : bool :=
  match ev with
  | OutError _ | ChildError _ => true
  | _ => false
  end.

(** Events during which the promise cannot have settled: no error among
    them, and not both the child's close and the stream's. *)
Definition quiet (evs : list ChildEvent) : bool :=
  forallb (fun ev => negb (isError ev)) evs
  && negb (existsb isChildClose evs && existsb isOutClose evs).

(** A transfer that runs to its end without an error: the data events
    [evs], then the child's close with [code] and the close of the write
    stream.  The stream closes after the child, or before it, once stdout
    has ended; in that case text on stderr may still come in between. *)
Definition runsToEnd (trace evs : list ChildEvent) (code : option Z) : Prop :=
  forallb isData evs = true
  /\ (trace = (evs ++ [ChildClose code; OutClose])%list
      \/ exists a b : list ChildEvent,
           evs = (a ++ b)%list /\ forallb isStderr b = true
           /\ trace = (a ++ OutClose :: b ++ [ChildClose code])%list).

(** The error for an exit code other than 0, given the text on stderr. *)
Definition exitError (code : option Z) (stderrSoFar : string) : JsError :=
  Error ("AWS CLI exited with code "
         +:+ match code with Some c => pretty c | None => "null" end
         +:+ ": " +:+ JsString.trim stderrSoFar).

(** What the caller gets from the callback of [out.close]. *)
Definition exitOutcome (code : option Z) (stderrSoFar : string) : Outcome unit :=
  if decide (code = Some 0%Z) then Returned tt else Thrown (exitError code stderrSoFar).

(** [quiet], from a state where the child has closed ([c]) or the stream
    has ([o]). *)
Definition quietFrom (c o : bool) (evs : list ChildEvent) : bool :=
  forallb (fun ev => negb (isError ev)) evs
  && negb ((c || existsb isChildClose evs) && (o || existsb isOutClose evs)).

(** A transfer that fails with [e]: it runs to its end and the exit code is
    not 0, or the first event to settle the promise is an error of the write
    stream or of the child, whatever follows it. *)
Definition failsWith (trace : list ChildEvent) (e : JsError) : Prop :=
  (exists (evs : list ChildEvent) (code : option Z),
      runsToEnd trace evs code /\ code <> Some 0%Z
      /\ e = exitError code (stderrText evs))
  \/ (exists (pre rest : list ChildEvent) (ev : ChildEvent) (msg : string),
         trace = (pre ++ ev :: rest)%list /\ quiet pre = true
         /\ errorOf ev = Some msg /\ e = Error msg).

(** ** Vocabulary of the statements *)

(** The copy to stdout as a subprocess: the binary by platform, the six
    arguments, and the overrides laid over the inherited environment. *)
Definition copyCall (h : Host) (locator : string) (envExtras : gmap string string)
  : SpawnCall :=
  mkSpawn (if String.eqb (platform h) "win32" then "aws.exe" else "aws")
    ["s3"; "cp"; locator; "-"; "--no-progress"; "--only-show-errors"]
    (envExtras ∪ environ h).

(** What the event loop delivers for that subprocess. *)
Definition copyEvents (h : Host) (locator : string) (envExtras : gmap string string)
  : list ChildEvent :=
  let c := copyCall h locator envExtras in
  childEvents h (sc_command c) (sc_args c) (sc_env c).

(** The world a transfer leaves when it ran to its end after the data
    events [evs]: the subprocess is on record and the file holds the bytes
    of [evs]. *)
Definition afterTransfer (h : Host) (s3Uri dest : string) (envExtras : gmap string string)
    (evs : list ChildEvent) (w : World) : World :=
  setFiles (<[dest := stdoutBytes evs]> (files w)) (logSpawn (copyCall h s3Uri envExtras) w).

(** The overrides [openCsvFromS3] passes on: the two settings, trimmed. *)
Definition configuredEnv (h : Host) : gmap string string :=
  envExtrasOf (Some (Extension.profile h)) (Some (Extension.region h)).

(** The two list queries of the picker. *)
Definition bucketsCall (h : Host) (env : gmap string string) : SpawnCall :=
  mkSpawn (awsCmdName h) ["s3api"; "list-buckets"; "--output"; "json"] (mergedEnv h env).

Definition keysCall (h : Host) (bucket : string) (env : gmap string string) : SpawnCall :=
  mkSpawn (awsCmdName h)
    ["s3api"; "list-objects-v2"; "--bucket"; bucket; "--output"; "json"] (mergedEnv h env).

(** The overrides the picker builds from the settings. *)
Definition pickerEnv (h : Host) : gmap string string :=
  envExtrasOf (Picker.trimmedSetting (awsProfile (config h)))
              (Picker.trimmedSetting (awsRegion (config h))).

Definition bucketPrompt : string := "Select an S3 bucket".

Definition keyPrompt (bucket : string) : string := "Select file from " +:+ bucket.

(** The bucket names of the examples. *)
Definition twoBuckets : list Js.value := [Js.Str "a"; Js.Str "b"].

(** A host where auto-open is on, a locator is configured, and the child
    is refused access. *)
Definition autoOpenDenied : Host :=
  Demo.host (mkConfig (Some "s3://bucket1/data.csv") None None (Some true))
    (Returned None) Demo.accessDenied "" None None.

(** A child that wrote [a,b] and exited with code 2, where the write stream
    fails after the child's close. *)
Definition lateSinkFailure : list ChildEvent :=
  [StdoutData (Demo.bytes "a,b"); StderrData "Access Denied"; ChildClose (Some 2%Z);
   OutError "ENOSPC: no space left on device, write"; OutClose].



(** A host whose input box fails. *)
Definition brokenInputBox : Host :=
  Demo.host Demo.noConfig (Thrown (Error "Canceled")) Demo.twoChunks "" None None.

(** A host whose editor opens a document and cannot show it, and one whose
    editor cannot set the language of a document. *)
Definition hiddenEditorHost : Host :=
  mkHost "linux" ∅ "/tmp" 1700000000000 Demo.noConfig
    (fun _ _ _ => Demo.twoChunks) (fun _ _ _ => mkExec None "" "")
    Demo.parse (Returned None) (fun _ _ => Returned None)
    (fun _ _ => inr "plaintext") (fun _ => inl (Error "No editor"))
    (fun _ _ => inr tt).

Definition fixedLanguageHost : Host :=
  mkHost "linux" ∅ "/tmp" 1700000000000 Demo.noConfig
    (fun _ _ _ => Demo.twoChunks) (fun _ _ _ => mkExec None "" "")
    Demo.parse (Returned None) (fun _ _ => Returned None)
    (fun _ _ => inr "plaintext") (fun _ => inr tt)
    (fun _ _ => inl (Error "Unknown language id: csv")).

(** A string without a slash. *)
Definition noSlash (s : string) : Prop :=
  forallb (fun c => negb (PosixPath.isSlash c)) (list_ascii_of_string s) = true.

(** A plain file name: one segment that [normalize] keeps as it is. *)
Definition plainName (f : string) : Prop :=
  noSlash f /\ f <> "" /\ f <> "." /\ f <> "..".

(** Decimal digits. *)
Definition isDigit (c : ascii) : bool :=
  let n := nat_of_ascii c in Nat.leb 48 n && Nat.leb n 57.

Definition allDigits (s : string) : Prop :=
  forallb isDigit (list_ascii_of_string s) = true.

(** The first and the last character of a string. *)
Definition firstChar (s : string) : option ascii :=
  match s with
  | EmptyString => None
  | String c _ => Some c
  end.

Definition lastChar (s : string) : option ascii :=
  last (list_ascii_of_string s).





(** What [join] puts before a plain name: nothing for an empty directory,
    otherwise the directory normalized, closed by a slash. *)
Definition dirPrefix (d : string) : string :=
  match d with
  | EmptyString => ""
  | _ =>
      let abs := PosixPath.isAbsolute d in
      (if abs then "/" else "")
      +:+ match rev (PosixPath.normalizeStack (negb abs) (PosixPath.segments d)) with
          | [] => ""
          | st => PosixPath.joinWith "/" st +:+ "/"
          end
  end.

(** The name of the temporary file: the fixed prefix, the time stamp, a
    dash and the file name. *)
Definition tempName (stamp : N) (name : string) : string :=
  "s3-csv-viewer-" +:+ decimal stamp +:+ "-" +:+ name.

(** The temporary path of [data.csv] in the examples. *)
Definition dataCsv : string := "/tmp/s3-csv-viewer-1700000000000-data.csv".

(** ** Facts about strings *)

Lemma append_cons (x : ascii) (a b : string) : String x a +:+ b = String x (a +:+ b).
Proof. reflexivity. Qed.

Lemma append_nil_l (b : string) : "" +:+ b = b.
Proof. reflexivity. Qed.

Lemma append_assoc (a b c : string) : (a +:+ b) +:+ c = a +:+ (b +:+ c).
Proof.
  induction a as [|x a IH]; [reflexivity |].
  rewrite !append_cons. now rewrite IH.
Qed.

Lemma append_nil_r (a : string) : a +:+ "" = a.
Proof.
  induction a as [|x a IH]; [reflexivity |].
  rewrite append_cons. now rewrite IH.
Qed.

Lemma append_eq_nil (a b : string) : a +:+ b = "" -> a = "" /\ b = "".
Proof.
  destruct a as [|c a]; [intros H; split; [reflexivity | exact H] |].
  rewrite append_cons. discriminate.
Qed.

Lemma chars_append (a b : string) :
  list_ascii_of_string (a +:+ b) = (list_ascii_of_string a ++ list_ascii_of_string b)%list.
Proof.
  induction a as [|x a IH]; [reflexivity |].
  rewrite append_cons. simpl. now rewrite IH.
Qed.

Lemma startsWith_append (p r : string) : JsString.startsWith p (p +:+ r) = true.
Proof.
  induction p as [|x p IH]; [reflexivity |].
  rewrite append_cons. simpl. now rewrite Ascii.eqb_refl.
Qed.

Lemma startsWith_inv (p s : string) :
  JsString.startsWith p s = true -> exists r, s = p +:+ r.
Proof.
  revert s. induction p as [|x p IH]; intros s H; simpl in *.
  - now exists s.
  - destruct s as [|y s]; [discriminate |].
    destruct (Ascii.eqb_spec x y) as [->|]; [| discriminate].
    destruct (IH _ H) as [r ->]. now exists r.
Qed.

(** A string of white space does not carry the scheme. *)
Lemma whitespaceOnly_not_s3 (s : string) :
  JsString.whitespaceOnly s = true -> JsString.startsWith "s3://" s = false.
Proof.
  destruct s as [|c s]; [reflexivity |].
  intros H. simpl in H. apply andb_prop in H as [Hc _].
  change (JsString.startsWith "s3://" (String c s))
    with (if Ascii.eqb "s" c then JsString.startsWith "3://" s else false).
  destruct (Ascii.eqb_spec "s" c) as [<-|]; [| reflexivity].
  vm_compute in Hc. discriminate Hc.
Qed.

Lemma trim_whitespaceOnly (s : string) :
  JsString.whitespaceOnly s = true -> JsString.trim s = "".
Proof.
  unfold JsString.trim.
  induction s as [|c s IH]; simpl; [reflexivity |].
  intros H. apply andb_prop in H as [Hc Hs]. rewrite Hc. auto.
Qed.

(** ** Facts about a transfer *)

Section TransferFacts.

Variable h : Host.

Lemma alter_present (m : gmap string (list byte)) (k : string) (f : list byte -> list byte)
    (x : list byte) :
  m !! k = Some x -> alter f k m = <[k := f x]> m.
Proof.
  intros Hk. rewrite <- (insert_id m k x Hk) at 1. apply alter_insert_eq.
Qed.

Lemma handle_app (dest : string) (a b : list ChildEvent) :
  forall (t : Transfer) (w : World),
    handle dest (a ++ b) t w
    = handle dest b (fst (handle dest a t w)) (snd (handle dest a t w)).
Proof.
  induction a as [|ev a IH]; intros t w; [reflexivity |].
  simpl. destruct (onEvent dest ev t w) as [t' w']. apply IH.
Qed.

Lemma deliver_handle (dest : string) (evs : list ChildEvent) (t : Transfer) (w : World) :
  deliver dest evs t w
  = (outcomeOf (fst (handle dest evs t w)), snd (handle dest evs t w)).
Proof. unfold deliver. now destruct (handle dest evs t w). Qed.

Lemma stdoutBytes_app (a b : list ChildEvent) :
  stdoutBytes (a ++ b) = (stdoutBytes a ++ stdoutBytes b)%list.
Proof.
  induction a as [|ev a IH]; [reflexivity |].
  destruct ev; simpl; rewrite IH; try reflexivity. now rewrite app_assoc.
Qed.

Lemma stderrText_app (a b : list ChildEvent) :
  stderrText (a ++ b) = stderrText a +:+ stderrText b.
Proof.
  induction a as [|ev a IH]; [reflexivity |].
  destruct ev; simpl; rewrite IH; try reflexivity. now rewrite append_assoc.
Qed.

Lemma stdoutBytes_stderr (b : list ChildEvent) :
  forallb isStderr b = true -> stdoutBytes b = [].
Proof.
  induction b as [|ev b IH]; [reflexivity |].
  simpl. intros H. apply andb_prop in H as [Hev Hb].
  destruct ev; try discriminate Hev. auto.
Qed.

(** Data events never settle the promise: while the stream can be written
    they add to the file and to the stderr text. *)
Lemma handle_data (dest : string) (evs : list ChildEvent) :
  forall (t : Transfer) (w : World) (content : list byte),
    forallb isData evs = true ->
    writable t = true ->
    files w !! dest = Some content ->
    handle dest evs t w =
    (mkTransfer (stderrBuf t +:+ stderrText evs) (settled t) (exitCode t)
       (outFailed t) (outClosed t),
     setFiles (<[dest := (content ++ stdoutBytes evs)%list]> (files w)) w).
Proof.
  induction evs as [|ev evs IH]; intros t w content Hdata Ht Hfile.
  - simpl. rewrite append_nil_r, app_nil_r, (insert_id _ _ _ Hfile).
    now destruct t, w.
  - simpl in Hdata. apply andb_prop in Hdata as [Hev Hdata].
    destruct ev as [chunk|d| | | |]; try discriminate Hev; simpl.
    + rewrite Ht.
      rewrite (IH t (writeChunk dest chunk w) (content ++ chunk)%list Hdata Ht).
      * unfold writeChunk, setFiles. simpl.
        rewrite (alter_present _ _ _ _ Hfile), insert_insert_eq.
        now rewrite <- app_assoc.
      * unfold writeChunk. simpl.
        rewrite (alter_present _ _ _ _ Hfile). apply lookup_insert_eq.
    + rewrite (IH (mkTransfer (stderrBuf t +:+ d) (settled t) (exitCode t)
                     (outFailed t) (outClosed t)) w content Hdata Ht Hfile).
      simpl. now rewrite append_assoc.
Qed.

(** Text on stderr is gathered whatever the state of the stream. *)
Lemma handle_stderr (dest : string) (evs : list ChildEvent) :
  forall (t : Transfer) (w : World),
    forallb isStderr evs = true ->
    handle dest evs t w =
    (mkTransfer (stderrBuf t +:+ stderrText evs) (settled t) (exitCode t)
       (outFailed t) (outClosed t), w).
Proof.
  induction evs as [|ev evs IH]; intros t w Hdata.
  - simpl. rewrite append_nil_r. now destruct t.
  - simpl in Hdata. apply andb_prop in Hdata as [Hev Hdata].
    destruct ev as [chunk|d| | | |]; try discriminate Hev; simpl.
    rewrite (IH _ w Hdata). simpl. now rewrite append_assoc.
Qed.

Lemma closeCallback_outcome (code : option Z) (t : Transfer) :
  settled t = None ->
  outcomeOf (closeCallback code t) = exitOutcome code (stderrBuf t).
Proof.
  intros Ht. unfold closeCallback, exitOutcome, settle, outcomeOf. rewrite Ht.
  destruct (decide (code = Some 0%Z)); [reflexivity |].
  simpl. unfold exitError, codeText, decimalZ. reflexivity.
Qed.

(** A transfer that runs to its end settles by the exit code, with all the
    bytes of its data events in the file. *)
Lemma deliver_runsToEnd (dest : string) (trace evs : list ChildEvent) (code : option Z)
    (w : World) (content : list byte) :
  runsToEnd trace evs code ->
  files w !! dest = Some content ->
  deliver dest trace newTransfer w =
  (exitOutcome code (stderrText evs),
   setFiles (<[dest := (content ++ stdoutBytes evs)%list]> (files w)) w).
Proof.
  intros [Hdata [-> | (a & b & -> & Hb & ->)]] Hfile.
  - rewrite deliver_handle, handle_app.
    rewrite (handle_data dest evs newTransfer w content Hdata eq_refl Hfile).
    cbn [fst snd handle onEvent newTransfer outClosed exitCode stderrBuf settled outFailed].
    rewrite closeCallback_outcome by reflexivity. reflexivity.
  - rewrite forallb_app in Hdata. apply andb_prop in Hdata as [Ha _].
    rewrite deliver_handle, handle_app.
    rewrite (handle_data dest a newTransfer w content Ha eq_refl Hfile).
    cbn [fst snd handle onEvent newTransfer outClosed exitCode stderrBuf settled outFailed].
    rewrite handle_app, (handle_stderr dest b _ _ Hb).
    cbn [fst snd handle onEvent newTransfer outClosed exitCode stderrBuf settled outFailed].
    rewrite closeCallback_outcome by reflexivity.
    cbn [stderrBuf]. rewrite stderrText_app, stdoutBytes_app, (stdoutBytes_stderr b Hb).
    now rewrite app_nil_r, append_assoc.
Qed.

(** A promise that has settled stays as it is. *)
Lemma settle_settled (r r' : JsError + unit) (t : Transfer) :
  settled t = Some r -> settled (settle r' t) = Some r.
Proof. intros Ht. unfold settle. now rewrite Ht. Qed.

Lemma closeCallback_settled (code : option Z) (r : JsError + unit) (t : Transfer) :
  settled t = Some r -> settled (closeCallback code t) = Some r.
Proof.
  intros Ht. unfold closeCallback.
  destruct (decide (code = Some 0%Z)); now apply settle_settled.
Qed.

Lemma onEvent_settled (dest : string) (ev : ChildEvent) (t : Transfer) (w : World)
    (r : JsError + unit) :
  settled t = Some r -> settled (fst (onEvent dest ev t w)) = Some r.
Proof.
  intros Ht. destruct ev as [chunk|d|msg| |msg|code]; simpl.
  - now destruct (writable t).
  - exact Ht.
  - now apply settle_settled.
  - destruct (exitCode t); simpl; [now apply closeCallback_settled | exact Ht].
  - now apply settle_settled.
  - destruct (outClosed t); simpl; [now apply closeCallback_settled |].
    now destruct (exitCode t).
Qed.

Lemma handle_settled (dest : string) (evs : list ChildEvent) (r : JsError + unit) :
  forall (t : Transfer) (w : World),
    settled t = Some r -> settled (fst (handle dest evs t w)) = Some r.
Proof.
  induction evs as [|ev evs IH]; intros t w Ht; [exact Ht |].
  simpl. pose proof (onEvent_settled dest ev t w r Ht) as Hstep.
  destruct (onEvent dest ev t w) as [t' w']. now apply IH.
Qed.

Lemma handle_quietFrom (dest : string) (evs : list ChildEvent) :
  forall (t : Transfer) (w : World),
    settled t = None ->
    quietFrom (bool_decide (is_Some (exitCode t))) (outClosed t) evs = true ->
    settled (fst (handle dest evs t w)) = None.
Proof.
  induction evs as [|ev evs IH]; intros t w Ht Hq; [exact Ht |].
  unfold quietFrom in Hq. apply andb_prop in Hq as [Herr Hboth].
  simpl in Herr. apply andb_prop in Herr as [Hev Herr].
  apply negb_true_iff in Hboth.
  destruct ev as [chunk|d|msg| |msg|code]; try discriminate Hev; simpl in Hboth;
    cbn [handle onEvent].
  - destruct (writable t); apply IH; try exact Ht;
      unfold quietFrom; simpl; now rewrite Herr, Hboth.
  - apply IH; [exact Ht |]. unfold quietFrom. simpl. now rewrite Herr, Hboth.
  - rewrite orb_true_r, andb_true_r in Hboth.
    apply orb_false_iff in Hboth as [Hc Hcc].
    destruct (exitCode t) as [c0|] eqn:Hcode.
    { exfalso. rewrite bool_decide_eq_false in Hc. apply Hc. now eexists. }
    apply IH; [exact Ht |]. unfold quietFrom. simpl.
    now rewrite Herr, Hcc.
  - rewrite orb_true_r, andb_true_l in Hboth.
    apply orb_false_iff in Hboth as [Ho Hoc].
    rewrite Ho.
    destruct (exitCode t) as [c0|] eqn:Hcode.
    + apply IH; [exact Ht |]. unfold quietFrom.
      rewrite Herr, ?Ho, Hoc. simpl. now rewrite andb_false_r.
    + apply IH; [exact Ht |]. unfold quietFrom. simpl.
      rewrite Herr, ?Ho, Hoc. simpl. now rewrite ?andb_false_r.
Qed.

Lemma handle_quiet (dest : string) (evs : list ChildEvent) (w : World) :
  quiet evs = true -> settled (fst (handle dest evs newTransfer w)) = None.
Proof.
  intros Hq. apply handle_quietFrom; [reflexivity | exact Hq].
Qed.

(** The first error event after quiet ones rejects the promise, whatever
    follows. *)
Lemma deliver_error (dest : string) (pre rest : list ChildEvent) (ev : ChildEvent)
    (msg : string) (w : World) :
  quiet pre = true ->
  errorOf ev = Some msg ->
  fst (deliver dest (pre ++ ev :: rest) newTransfer w) = Thrown (Error msg).
Proof.
  intros Hq Hev. rewrite deliver_handle, handle_app. cbn [fst].
  pose proof (handle_quiet dest pre w Hq) as Hpre.
  destruct (handle dest pre newTransfer w) as [t1 w1]. simpl in Hpre. cbn [fst snd].
  simpl.
  assert (Hstep : settled (fst (onEvent dest ev t1 w1)) = Some (inl (Error msg))).
  { destruct ev; try discriminate Hev; injection Hev as ->; simpl;
      unfold settle; simpl; now rewrite Hpre. }
  destruct (onEvent dest ev t1 w1) as [t2 w2]. simpl in Hstep.
  unfold outcomeOf. now rewrite (handle_settled dest rest _ t2 w2 Hstep).
Qed.

(** Handling the events starts no subprocess, shows nothing, registers
    nothing, and touches no file but the destination, which it never
    removes. *)
Lemma onEvent_frame (dest : string) (ev : ChildEvent) (t : Transfer) (w : World) :
  let w' := snd (onEvent dest ev t w) in
  spawned w' = spawned w /\ ui w' = ui w /\ commands w' = commands w
  /\ (forall p, p <> dest -> files w' !! p = files w !! p)
  /\ (is_Some (files w !! dest) -> is_Some (files w' !! dest))
  /\ killed w' = (killed w ++ (if isOutError ev then ["SIGKILL"] else []))%list.
Proof.
  destruct ev as [chunk|d|msg| |msg|code]; simpl.
  - destruct (writable t); simpl; repeat split; auto.
    + intros p Hp. now apply lookup_alter_ne.
    + intros [c Hc]. rewrite lookup_alter_eq, Hc. now eexists.
    + now rewrite app_nil_r.
    + now rewrite app_nil_r.
  - repeat split; auto. now rewrite app_nil_r.
  - repeat split; auto.
  - destruct (exitCode t); simpl; repeat split; auto; now rewrite app_nil_r.
  - repeat split; auto. now rewrite app_nil_r.
  - destruct (outClosed t); [| destruct (exitCode t)]; simpl; repeat split; auto;
      now rewrite app_nil_r.
Qed.

Lemma handle_frame (dest : string) (evs : list ChildEvent) :
  forall (t : Transfer) (w : World),
    let w' := snd (handle dest evs t w) in
    spawned w' = spawned w /\ ui w' = ui w /\ commands w' = commands w
    /\ (forall p, p <> dest -> files w' !! p = files w !! p)
    /\ (is_Some (files w !! dest) -> is_Some (files w' !! dest))
    /\ killed w'
       = (killed w ++ repeat "SIGKILL" (length (List.filter isOutError evs)))%list.
Proof.
  induction evs as [|ev evs IH]; intros t w.
  - simpl. repeat split; auto. now rewrite app_nil_r.
  - simpl. pose proof (onEvent_frame dest ev t w) as Hstep.
    destruct (onEvent dest ev t w) as [t1 w1]. simpl in Hstep.
    destruct Hstep as (Hs & Hu & Hc & Hf & Hd & Hk).
    destruct (IH t1 w1) as (Hs' & Hu' & Hc' & Hf' & Hd' & Hk').
    split; [congruence |]. split; [congruence |]. split; [congruence |].
    split; [intros p Hp; rewrite (Hf' p Hp); now apply Hf |].
    split; [auto |].
    rewrite Hk', Hk, <- app_assoc. f_equal.
    destruct ev; reflexivity.
Qed.

(** The events of the copy, as [awsS3CpToFile] asks for them. *)
Lemma copyEvents_eq (s3Uri : string) (envExtras : gmap string string) :
  childEvents h (awsCmdName h) (cpArgs s3Uri) (mergedEnv h envExtras)
  = copyEvents h s3Uri envExtras.
Proof. reflexivity. Qed.

Lemma cpCall_eq (s3Uri : string) (envExtras : gmap string string) :
  cpCall h s3Uri envExtras = copyCall h s3Uri envExtras.
Proof. reflexivity. Qed.

Lemma awsS3CpToFile_unfold (s3Uri dest : string) (envExtras : gmap string string)
    (w : World) :
  awsS3CpToFile h s3Uri dest envExtras w
  = deliver dest (copyEvents h s3Uri envExtras) newTransfer
      (createWriteStream dest (logSpawn (copyCall h s3Uri envExtras) w)).
Proof. reflexivity. Qed.

Lemma awsS3CpToFile_runsToEnd (s3Uri dest : string) (envExtras : gmap string string)
    (evs : list ChildEvent) (code : option Z) (w : World) :
  runsToEnd (copyEvents h s3Uri envExtras) evs code ->
  awsS3CpToFile h s3Uri dest envExtras w =
  (exitOutcome code (stderrText evs), afterTransfer h s3Uri dest envExtras evs w).
Proof.
  intros Hrun. rewrite awsS3CpToFile_unfold.
  rewrite (deliver_runsToEnd dest _ evs code _ [] Hrun).
  - unfold afterTransfer, createWriteStream, setFiles, logSpawn. simpl.
    now rewrite insert_insert_eq.
  - simpl. apply lookup_insert_eq.
Qed.

Lemma awsS3CpToFile_error (s3Uri dest : string) (envExtras : gmap string string)
    (pre rest : list ChildEvent) (ev : ChildEvent) (msg : string) (w : World) :
  copyEvents h s3Uri envExtras = (pre ++ ev :: rest)%list ->
  quiet pre = true ->
  errorOf ev = Some msg ->
  fst (awsS3CpToFile h s3Uri dest envExtras w) = Thrown (Error msg).
Proof.
  intros Hevs Hq Hev. rewrite awsS3CpToFile_unfold, Hevs.
  now apply deliver_error.
Qed.

(** What a whole transfer leaves alone, however it ends. *)
Lemma awsS3CpToFile_frame (s3Uri dest : string) (envExtras : gmap string string)
    (w : World) :
  let w' := snd (awsS3CpToFile h s3Uri dest envExtras w) in
  spawned w' = (spawned w ++ [copyCall h s3Uri envExtras])%list
  /\ ui w' = ui w /\ commands w' = commands w
  /\ (forall p, p <> dest -> files w' !! p = files w !! p)
  /\ is_Some (files w' !! dest)
  /\ killed w'
     = (killed w
        ++ repeat "SIGKILL" (length (List.filter isOutError (copyEvents h s3Uri envExtras))))%list.
Proof.
  rewrite awsS3CpToFile_unfold, deliver_handle. cbn [snd].
  destruct (handle_frame dest (copyEvents h s3Uri envExtras) newTransfer
              (createWriteStream dest (logSpawn (copyCall h s3Uri envExtras) w)))
    as (Hs & Hu & Hc & Hf & Hd & Hk).
  rewrite Hs, Hu, Hc, Hk. simpl.
  repeat split; auto.
  - intros p Hp. rewrite (Hf p Hp). simpl. now apply lookup_insert_ne.
  - apply Hd. simpl. rewrite lookup_insert_eq. now eexists.
Qed.

(** A transfer that fails, in either way, makes [awsS3CpToFile] throw. *)
Lemma awsS3CpToFile_failsWith (s3Uri dest : string) (envExtras : gmap string string)
    (e : JsError) (w : World) :
  failsWith (copyEvents h s3Uri envExtras) e ->
  fst (awsS3CpToFile h s3Uri dest envExtras w) = Thrown e.
Proof.
  intros [(evs & code & Hrun & Hcode & ->) | (pre & rest & ev & msg & Hevs & Hq & Hev & ->)].
  - rewrite (awsS3CpToFile_runsToEnd s3Uri dest envExtras evs code w Hrun).
    unfold exitOutcome. simpl. now destruct (decide (code = Some 0%Z)).
  - now apply (awsS3CpToFile_error s3Uri dest envExtras pre rest ev msg w).
Qed.

End TransferFacts.

(** ** Facts about [fetchCsvToTemp] *)

Section FetchFacts.

Variable h : Host.

(** Whenever [fetchCsvToTemp] throws after it accepted the locator, there is
    no file at the temporary path: the handler removed it, or there was none
    to remove and the failure of [unlink] was swallowed. *)
Lemma fetchCsvToTemp_thrown_no_file (s3Uri : string) (profile region : option string)
    (w w' : World) (e : JsError) :
  Extension.rejected s3Uri = false ->
  Extension.fetchCsvToTemp h s3Uri profile region w = (Thrown e, w') ->
  files w' !! Extension.tmpPath h s3Uri = None.
Proof.
  intros Hok. unfold Extension.fetchCsvToTemp. rewrite Hok.
  unfold tryCatch at 1. unfold bind at 1.
  destruct (awsS3CpToFile h s3Uri _ _ w) as [[[]|e0|] w1]; simpl; try discriminate.
  unfold bind, tryCatch, unlink, throw, ret.
  destruct (files w1 !! Extension.tmpPath h s3Uri) eqn:Hfile; simpl.
  - intros [= _ <-]. simpl. apply lookup_delete_eq.
  - intros [= _ <-]. exact Hfile.
Qed.

(** When the transfer throws, [fetchCsvToTemp] removes the file and throws
    the same error. *)
Lemma fetchCsvToTemp_rethrows (s3Uri : string) (profile region : option string)
    (e : JsError) (w : World) :
  Extension.rejected s3Uri = false ->
  fst (awsS3CpToFile h s3Uri (Extension.tmpPath h s3Uri) (envExtrasOf profile region) w)
    = Thrown e ->
  exists w',
    Extension.fetchCsvToTemp h s3Uri profile region w = (Thrown e, w')
    /\ files w' !! Extension.tmpPath h s3Uri = None
    /\ spawned w' = (spawned w ++ [copyCall h s3Uri (envExtrasOf profile region)])%list
    /\ ui w' = ui w.
Proof.
  intros Hok Hrun.
  destruct (awsS3CpToFile_frame h s3Uri (Extension.tmpPath h s3Uri)
              (envExtrasOf profile region) w) as (Hs & Hu & _ & _ & [c Hd] & _).
  unfold Extension.fetchCsvToTemp. rewrite Hok.
  unfold tryCatch at 1. unfold bind at 1.
  destruct (awsS3CpToFile h s3Uri _ _ w) as [r w1]. simpl in Hrun, Hs, Hu, Hd. subst r.
  unfold bind, tryCatch, unlink, throw, ret. rewrite Hd.
  eexists. split; [reflexivity |]. simpl.
  split; [apply lookup_delete_eq |]. now split.
Qed.

Lemma fetchCsvToTemp_succeeds (s3Uri : string) (profile region : option string)
    (evs : list ChildEvent) (w : World) :
  Extension.rejected s3Uri = false ->
  runsToEnd (copyEvents h s3Uri (envExtrasOf profile region)) evs (Some 0%Z) ->
  Extension.fetchCsvToTemp h s3Uri profile region w =
  (Returned (Extension.tmpPath h s3Uri),
   afterTransfer h s3Uri (Extension.tmpPath h s3Uri) (envExtrasOf profile region) evs w).
Proof.
  intros Hok Hrun.
  unfold Extension.fetchCsvToTemp. rewrite Hok.
  unfold tryCatch, bind.
  now rewrite (awsS3CpToFile_runsToEnd h s3Uri _ _ evs (Some 0%Z) w Hrun).
Qed.

(** The picker's retrieval has no handler around the transfer: the failure
    goes up as it is and the file stays. *)
Lemma openS3FileInEditor_failed_transfer (s3Uri : string) (profile region : option string)
    (e : JsError) (w : World) :
  let dest :=
    PosixPath.join (tmpdir h)
      ("s3-viewer-" +:+ decimal (now h) +:+ "-" +:+ PosixPath.basename s3Uri) in
  failsWith (copyEvents h s3Uri (envExtrasOf profile region)) e ->
  exists w',
    Picker.openS3FileInEditor h s3Uri profile region w = (Thrown e, w')
    /\ is_Some (files w' !! dest).
Proof.
  intros dest Hfail.
  pose proof (awsS3CpToFile_failsWith h s3Uri dest _ e w Hfail) as Hrun.
  destruct (awsS3CpToFile_frame h s3Uri dest (envExtrasOf profile region) w)
    as (_ & _ & _ & _ & Hd & _).
  unfold Picker.openS3FileInEditor. fold dest.
  unfold bind at 1.
  destruct (awsS3CpToFile h s3Uri dest _ w) as [r w1]. simpl in Hrun, Hd. subst r.
  eexists. split; [reflexivity | exact Hd].
Qed.

End FetchFacts.

(** ** Transfers that fail, transfers that succeed, locators that are refused *)

(** C1, on the picker's retrieval [openS3FileInEditor]: the child writes the
    three bytes [a,b], prints [Access Denied] and exits with code 2.  The call
    throws the transfer's error, and the temporary file is still there when it
    returns, holding the three bytes: nothing removes the partial file on this
    path, unlike in [fetchCsvToTemp] ([fetchCsvToTemp_thrown_no_file]). *)
Theorem C1_picker_leaves_partial_file :
  let h := Demo.plainHost Demo.accessDenied in
  let r := Picker.openS3FileInEditor h "s3://bucket1/data.csv" None None Demo.emptyWorld in
  fst r = Thrown (Error "AWS CLI exited with code 2: Access Denied")
  /\ files (snd r) !! "/tmp/s3-viewer-1700000000000-data.csv" = Some (Demo.bytes "a,b").
Proof. vm_compute. split; reflexivity. Qed.

(** The same child under [fetchCsvToTemp]: the same error, and no file. *)
Example fetchCsvToTemp_access_denied :
  let h := Demo.plainHost Demo.accessDenied in
  let r := Extension.fetchCsvToTemp h "s3://bucket1/data.csv" None None Demo.emptyWorld in
  fst r = Thrown (Error "AWS CLI exited with code 2: Access Denied")
  /\ files (snd r) = ∅.
Proof. vm_compute. split; reflexivity. Qed.

(** A transfer that fails after validation (the child ends with an exit code
    other than 0, or an error of the write stream or of the child is the
    first to settle the promise, before or after the child's close) makes
    [fetchCsvToTemp] throw the error of the transfer, not one of the cleanup;
    when it returns there is no file at the temporary path, whatever was
    written before, and the copy is the only subprocess that was started. *)
Theorem fetchCsvToTemp_failed_transfer (h : Host) (s3Uri : string)
    (profile region : option string) (e : JsError) (w : World) :
  Extension.rejected s3Uri = false ->
  failsWith (copyEvents h s3Uri (envExtrasOf profile region)) e ->
  exists w',
    Extension.fetchCsvToTemp h s3Uri profile region w = (Thrown e, w')
    /\ files w' !! Extension.tmpPath h s3Uri = None
    /\ spawned w' = (spawned w ++ [copyCall h s3Uri (envExtrasOf profile region)])%list.
Proof.
  intros Hok Hfail.
  destruct (fetchCsvToTemp_rethrows h s3Uri profile region e w Hok
              (awsS3CpToFile_failsWith h s3Uri _ _ e w Hfail))
    as (w' & Hrun & Hfile & Hs & _).
  exists w'. now repeat split.
Qed.

Lemma fetchCsvToTemp_failed_transfer_witness :
  (exists w',
      Extension.fetchCsvToTemp (Demo.plainHost Demo.accessDenied) "s3://bucket1/data.csv"
        None None Demo.emptyWorld
        = (Thrown (Error "AWS CLI exited with code 2: Access Denied"), w')
      /\ files w' !! "/tmp/s3-csv-viewer-1700000000000-data.csv" = None
      /\ spawned w'
         = [mkSpawn "aws"
              ["s3"; "cp"; "s3://bucket1/data.csv"; "-"; "--no-progress"; "--only-show-errors"]
              {[ "HOME" := "/home/u" ]}])
  /\ (exists w',
        Extension.fetchCsvToTemp (Demo.plainHost lateSinkFailure) "s3://bucket1/data.csv"
          None None Demo.emptyWorld
          = (Thrown (Error "ENOSPC: no space left on device, write"), w')
        /\ files w' !! "/tmp/s3-csv-viewer-1700000000000-data.csv" = None
        /\ spawned w'
           = [mkSpawn "aws"
                ["s3"; "cp"; "s3://bucket1/data.csv"; "-"; "--no-progress";
                 "--only-show-errors"]
                {[ "HOME" := "/home/u" ]}]).
Proof.
  split.
  - apply (fetchCsvToTemp_failed_transfer
             (Demo.plainHost Demo.accessDenied) "s3://bucket1/data.csv" None None
             (Error "AWS CLI exited with code 2: Access Denied") Demo.emptyWorld eq_refl).
    left. exists [StdoutData (Demo.bytes "a,b"); StderrData "Access Denied"], (Some 2%Z).
    split; [split; [reflexivity | left; reflexivity] |].
    split; [discriminate | reflexivity].
  - apply (fetchCsvToTemp_failed_transfer
             (Demo.plainHost lateSinkFailure) "s3://bucket1/data.csv" None None
             (Error "ENOSPC: no space left on device, write") Demo.emptyWorld eq_refl).
    right.
    exists [StdoutData (Demo.bytes "a,b"); StderrData "Access Denied"; ChildClose (Some 2%Z)],
           [OutClose], (OutError "ENOSPC: no space left on device, write"),
           "ENOSPC: no space left on device, write".
    repeat split; reflexivity.
Defined.

(** C2 as stated fails: the child writes [a,b] and exits with code 0, and
    then the write to the file fails.  The child's [close] has only called
    [out.close]; the handler of the stream's [error] rejects before the
    callback of [out.close] can resolve, and the cleanup removes the file:
    the subprocess exited with code 0, and the retrieval failed. *)
Lemma C2_counterexample :
  let events :=
    [StdoutData (Demo.bytes "a,b"); ChildClose (Some 0%Z);
     OutError "ENOSPC: no space left on device, write"; OutClose] in
  let h := Demo.plainHost events in
  existsb (isCloseWith (Some 0%Z))
    (childEvents h "aws"
       ["s3"; "cp"; "s3://bucket1/data.csv"; "-"; "--no-progress"; "--only-show-errors"]
       (environ h)) = true
  /\ Extension.fetchCsvToTemp h "s3://bucket1/data.csv" None None Demo.emptyWorld
     = (Thrown (Error "ENOSPC: no space left on device, write"),
        mkWorld ∅
          [mkSpawn "aws"
             ["s3"; "cp"; "s3://bucket1/data.csv"; "-"; "--no-progress";
              "--only-show-errors"]
             {[ "HOME" := "/home/u" ]}]
          ["SIGKILL"] [] []).
Proof. cbv zeta. split; vm_compute; reflexivity. Qed.

(** C2, amended: when the transfer runs to its end (the child sends its
    data, closes with exit code 0, and the write stream closes) and neither
    the write stream nor the child raises an error at any point,
    [fetchCsvToTemp] returns the temporary path, and the file at that path
    holds exactly the chunks of the child's stdout, concatenated in the order
    they were written. *)
Theorem C2_successful_transfer_keeps_all_bytes (h : Host) (s3Uri : string)
    (profile region : option string) (evs : list ChildEvent) (w : World) :
  Extension.rejected s3Uri = false ->
  runsToEnd (copyEvents h s3Uri (envExtrasOf profile region)) evs (Some 0%Z) ->
  exists w',
    Extension.fetchCsvToTemp h s3Uri profile region w
      = (Returned (Extension.tmpPath h s3Uri), w')
    /\ files w' !! Extension.tmpPath h s3Uri = Some (stdoutBytes evs).
Proof.
  intros Hok Hrun.
  rewrite (fetchCsvToTemp_succeeds h s3Uri profile region evs w Hok Hrun).
  eexists. split; [reflexivity |].
  unfold afterTransfer. simpl. apply lookup_insert_eq.
Qed.

Lemma C2_witness :
  exists w',
    Extension.fetchCsvToTemp (Demo.plainHost Demo.twoChunks) "s3://bucket1/data.csv"
      None None Demo.emptyWorld
      = (Returned "/tmp/s3-csv-viewer-1700000000000-data.csv", w')
    /\ files w' !! "/tmp/s3-csv-viewer-1700000000000-data.csv"
       = Some (Demo.bytes ("a,b" +:+ Demo.newline +:+ "1,2" +:+ Demo.newline)).
Proof.
  apply (C2_successful_transfer_keeps_all_bytes
           (Demo.plainHost Demo.twoChunks) "s3://bucket1/data.csv" None None
           [StdoutData (Demo.bytes ("a,b" +:+ Demo.newline)); StderrData "";
            StdoutData (Demo.bytes ("1,2" +:+ Demo.newline))]
           Demo.emptyWorld eq_refl).
  split; [reflexivity | left; reflexivity].
Defined.

(** C3: a locator that is empty, made of white space only, or that does not
    start with [s3://] makes [fetchCsvToTemp] throw the validation error and
    leaves the world as it was: no subprocess was started, no file touched,
    nothing shown.  The host is not consulted. *)
Theorem C3_bad_locator_rejected_before_any_spawn (h : Host) (s3Uri : string)
    (profile region : option string) (w : World) :
  s3Uri = "" \/ JsString.whitespaceOnly s3Uri = true
    \/ JsString.startsWith "s3://" s3Uri = false ->
  Extension.fetchCsvToTemp h s3Uri profile region w
    = (Thrown (Error Extension.invalidUriMessage), w).
Proof.
  intros Hbad.
  assert (Hrej : Extension.rejected s3Uri = true).
  { unfold Extension.rejected.
    destruct Hbad as [-> | [Hws | Hpre]]; [reflexivity | |].
    - rewrite (whitespaceOnly_not_s3 _ Hws). apply orb_true_r.
    - rewrite Hpre. apply orb_true_r. }
  unfold Extension.fetchCsvToTemp. now rewrite Hrej.
Qed.

Lemma C3_witness :
  Extension.fetchCsvToTemp (Demo.plainHost Demo.twoChunks) "not-a-locator" None None
    Demo.emptyWorld
  = (Thrown (Error "Please provide a valid S3 URI (e.g., s3://bucket/key.csv)."),
     Demo.emptyWorld).
Proof.
  apply (C3_bad_locator_rejected_before_any_spawn
           (Demo.plainHost Demo.twoChunks) "not-a-locator" None None Demo.emptyWorld).
  right. right. reflexivity.
Defined.

(** ** What each step leaves untouched *)

Section Frames.

Variable h : Host.

Lemma fetchCsvToTemp_frame (s3Uri : string) (profile region : option string) (w : World) :
  Extension.rejected s3Uri = false ->
  spawned (snd (Extension.fetchCsvToTemp h s3Uri profile region w))
    = (spawned w ++ [cpCall h s3Uri (envExtrasOf profile region)])%list
  /\ ui (snd (Extension.fetchCsvToTemp h s3Uri profile region w)) = ui w.
Proof.
  intros Hok. unfold Extension.fetchCsvToTemp. rewrite Hok.
  destruct (awsS3CpToFile_frame h s3Uri (Extension.tmpPath h s3Uri)
              (envExtrasOf profile region) w) as (Hs & Hu & _).
  unfold tryCatch, bind, unlink, throw, ret.
  destruct (awsS3CpToFile h s3Uri _ _ w) as [[[]|e|] w1]; simpl in *;
    try (now split).
  destruct (files w1 !! Extension.tmpPath h s3Uri); simpl; now split.
Qed.

Lemma openDocument_frame (path : string) (w : World) :
  spawned (snd (openDocument h path w)) = spawned w.
Proof.
  unfold openDocument. now destruct (openTextDocument h path (files w !! path)).
Qed.

Lemma showDocument_frame (path : string) (w : World) :
  spawned (snd (showDocument h path w)) = spawned w
  /\ commands (snd (showDocument h path w)) = commands w
  /\ files (snd (showDocument h path w)) = files w.
Proof. unfold showDocument. now destruct (showTextDocument h path). Qed.

Lemma setLanguage_frame (path languageId : string) (w : World) :
  spawned (snd (setLanguage h path languageId w)) = spawned w
  /\ commands (snd (setLanguage h path languageId w)) = commands w
  /\ files (snd (setLanguage h path languageId w)) = files w.
Proof. unfold setLanguage. now destruct (setTextDocumentLanguage h path languageId). Qed.

(** The transfer of [loadAndShow] is the only subprocess it starts. *)
Lemma loadAndShow_spawned (s3Uri : string) (w : World) :
  Extension.rejected s3Uri = false ->
  spawned (snd (Extension.loadAndShow h s3Uri w))
    = (spawned w ++ [cpCall h s3Uri
                       (envExtrasOf (Some (Extension.profile h))
                                    (Some (Extension.region h)))])%list.
Proof.
  intros Hok. unfold Extension.loadAndShow.
  destruct (fetchCsvToTemp_frame s3Uri (Some (Extension.profile h))
              (Some (Extension.region h)) w Hok) as [Hs _].
  unfold bind at 1.
  destruct (Extension.fetchCsvToTemp h s3Uri _ _ w) as [[p|e|] w1]; simpl in *;
    try exact Hs.
  unfold bind at 1.
  pose proof (openDocument_frame p w1) as Hd.
  destruct (openDocument h p w1) as [[lang|e|] w2]; simpl in *;
    try (rewrite Hd; exact Hs).
  unfold bind at 1.
  destruct (showDocument_frame p w2) as (Hshow & _).
  destruct (showDocument h p w2) as [[[]|e|] w3]; simpl in *;
    try (rewrite Hshow, Hd; exact Hs).
  unfold bind at 1.
  destruct (String.eqb lang "csv").
  - unfold bind, effect, ret. simpl. rewrite Hshow, Hd. exact Hs.
  - destruct (setLanguage_frame p "csv" w3) as (Hset & _).
    destruct (setLanguage h p "csv" w3) as [[[]|e|] w4]; simpl in *;
      rewrite Hset, Hshow, Hd; exact Hs.
Qed.

(** The buffered run starts exactly one subprocess and touches nothing
    else. *)
Lemma runAwsCli_frame (args : list string) (envExtras : gmap string string) (w : World) :
  snd (runAwsCli h args envExtras w)
    = logSpawn (mkSpawn (awsCmdName h) args (mergedEnv h envExtras)) w.
Proof.
  unfold runAwsCli, bind, effect.
  now destruct (exec_error (execFileResult h _ _ _)).
Qed.

Lemma getField_frame (o : Js.value) (name : string) (w : World) :
  snd (Picker.getField o name w) = w.
Proof. now destruct o. Qed.

Lemma mapField_frame (name : string) (items : list Js.value) (w : World) :
  snd (Picker.mapField name items w) = w.
Proof.
  induction items as [|o items IH]; [reflexivity |].
  simpl. unfold bind at 1.
  pose proof (getField_frame o name w) as Hg.
  destruct (Picker.getField o name w) as [[v|e|] w1]; simpl in *; subst w1;
    try reflexivity.
  unfold bind at 1.
  destruct (Picker.mapField name items w) as [[vs|e|] w2]; simpl in *; subst w2;
    reflexivity.
Qed.

Lemma mapOver_frame (what : string) (a : Js.value) (name : string) (w : World) :
  snd (Picker.mapOver what a name w) = w.
Proof. destruct a; try reflexivity. apply mapField_frame. Qed.

Lemma listBuckets_frame (env : gmap string string) (w : World) :
  snd (Picker.listBuckets h env w) = logSpawn (bucketsCall h env) w.
Proof.
  unfold Picker.listBuckets. unfold bind at 1.
  pose proof (runAwsCli_frame ["s3api"; "list-buckets"; "--output"; "json"] env w) as Hr.
  destruct (runAwsCli h _ env w) as [[raw|e|] w1]; simpl in *; subst w1; try reflexivity.
  unfold bind at 1, orThrow.
  destruct (JSON_parse h raw) as [e|v]; [reflexivity |]. simpl.
  unfold Picker.bucketNames. unfold bind at 1.
  match goal with
  | |- context [Picker.getField ?o ?n ?w0] =>
      pose proof (getField_frame o n w0) as Hg;
      destruct (Picker.getField o n w0) as [[bs|e|] w2]; simpl in *; subst w2;
      try reflexivity
  end.
  apply mapOver_frame.
Qed.

Lemma listKeys_frame (bucket : string) (env : gmap string string) (w : World) :
  snd (Picker.listKeys h bucket env w) = logSpawn (keysCall h bucket env) w.
Proof.
  unfold Picker.listKeys. unfold bind at 1.
  pose proof (runAwsCli_frame
                ["s3api"; "list-objects-v2"; "--bucket"; bucket; "--output"; "json"]
                env w) as Hr.
  destruct (runAwsCli h _ env w) as [[raw|e|] w1]; simpl in *; subst w1; try reflexivity.
  unfold bind at 1, orThrow.
  destruct (JSON_parse h raw) as [e|v]; [reflexivity |]. simpl.
  unfold Picker.objectKeys. unfold bind at 1.
  match goal with
  | |- context [Picker.getField ?o ?n ?w0] =>
      pose proof (getField_frame o n w0) as Hg;
      destruct (Picker.getField o n w0) as [[bs|e|] w2]; simpl in *; subst w2;
      try reflexivity
  end.
  apply mapOver_frame.
Qed.

End Frames.

(** ** The orchestrator: which locator, and what a dismissed prompt does *)

Lemma rejected_false_nonEmpty (s3Uri : string) :
  Extension.rejected s3Uri = false -> JsString.nonEmpty s3Uri = true.
Proof.
  unfold Extension.rejected. intros H. apply orb_false_elim in H as [H _].
  now apply negb_false_iff in H.
Qed.

Lemma openS3FileInEditor_spawned (h : Host) (s3Uri : string)
    (profile region : option string) (w : World) :
  spawned (snd (Picker.openS3FileInEditor h s3Uri profile region w))
    = (spawned w ++ [cpCall h s3Uri (envExtrasOf profile region)])%list.
Proof.
  unfold Picker.openS3FileInEditor.
  match goal with
  | |- context [awsS3CpToFile h s3Uri ?d ?e] =>
      destruct (awsS3CpToFile_frame h s3Uri d e w) as (Hs & _);
      unfold bind at 1;
      destruct (awsS3CpToFile h s3Uri d e w) as [[[]|err|] w1]; simpl in *;
      try exact Hs;
      unfold bind at 1;
      pose proof (openDocument_frame h d w1) as Hd;
      destruct (openDocument h d w1) as [[lang|err|] w2]; simpl in *;
      try (rewrite Hd; exact Hs);
      unfold bind at 1;
      destruct (showDocument_frame h d w2) as (Hshow & _);
      destruct (showDocument h d w2) as [[[]|err|] w3]; simpl in *;
      rewrite Hshow, Hd; exact Hs
  end.
Qed.

(** A handler that only shows a message turns every throw into a return. *)
Lemma tryCatch_shown (m : M unit) (text : JsError -> string) (w : World) :
  tryCatch m (fun err => effect (logUi (ErrorMessage (text err)))) w
  = match m w with
    | (Thrown e, w') => (Returned tt, logUi (ErrorMessage (text e)) w')
    | r => r
    end.
Proof. unfold tryCatch. now destruct (m w) as [[[]|e|] w']. Qed.

Lemma resolveUri_cases (h : Host) (uriFromInput : option string) (w : World) :
  (JsString.truthy uriFromInput = true ->
     Extension.resolveUri h uriFromInput w = (Returned uriFromInput, w))
  /\ (JsString.truthy uriFromInput = false ->
      JsString.nonEmpty (Extension.configuredUri h) = true ->
      Extension.resolveUri h uriFromInput w
        = (Returned (Some (Extension.configuredUri h)), w))
  /\ (JsString.truthy uriFromInput = false ->
      JsString.nonEmpty (Extension.configuredUri h) = false ->
      Extension.resolveUri h uriFromInput w
        = (showInputBox h, logUi InputBoxShown w)).
Proof.
  unfold Extension.resolveUri. repeat split.
  - now intros ->.
  - now intros -> ->.
  - now intros -> ->.
Qed.

Lemma openCsvFromS3_resolved (h : Host) (uriFromInput : option string) (w w1 : World)
    (locator : string) :
  Extension.resolveUri h uriFromInput w = (Returned (Some locator), w1) ->
  JsString.nonEmpty locator = true ->
  Extension.openCsvFromS3 h uriFromInput w
  = match Extension.loadAndShow h locator w1 with
    | (Thrown e, w') =>
        (Returned tt, logUi (ErrorMessage ("Failed to load CSV. " +:+ message e)) w')
    | r => r
    end.
Proof.
  intros Hres Hne. unfold Extension.openCsvFromS3. unfold bind at 1.
  rewrite Hres, Hne. simpl. apply tryCatch_shown.
Qed.

(** The copy of the resolved locator is the one subprocess of a run that
    gets past the validation. *)
Lemma openCsvFromS3_copies (h : Host) (uriFromInput : option string) (w w1 : World)
    (locator : string) :
  Extension.resolveUri h uriFromInput w = (Returned (Some locator), w1) ->
  Extension.rejected locator = false ->
  spawned (snd (Extension.openCsvFromS3 h uriFromInput w))
  = (spawned w ++ [copyCall h locator (configuredEnv h)])%list.
Proof.
  intros Hres Hok.
  assert (Hw1 : spawned w1 = spawned w).
  { revert Hres. unfold Extension.resolveUri.
    destruct (JsString.truthy uriFromInput); [now intros [= _ <-] |].
    destruct (JsString.nonEmpty (Extension.configuredUri h)); [now intros [= _ <-] |].
    unfold bind, effect, await. now intros [= _ <-]. }
  rewrite (openCsvFromS3_resolved h _ w w1 locator Hres (rejected_false_nonEmpty _ Hok)).
  pose proof (loadAndShow_spawned h locator w1 Hok) as Hs.
  destruct (Extension.loadAndShow h locator w1) as [[[]|e|] w2]; simpl in *;
    now rewrite Hs, Hw1.
Qed.








(** A blank setting counts as no setting. *)
Lemma configuredUri_blank (h : Host) (s : string) :
  s3Uri (config h) = Some s -> JsString.whitespaceOnly s = true ->
  Extension.configuredUri h = "".
Proof.
  intros Hs Hws. unfold Extension.configuredUri, Extension.trimmedSetting.
  now rewrite Hs, (trim_whitespaceOnly _ Hws).
Qed.

(** C5: a dismissed prompt ends the command without a message and without
    a transfer.
    - The input box of [openCsvFromS3], reached with no argument and no
      configured locator and answered by nothing: the command returns, and
      the world differs only by the input box having been shown.
    - The bucket pick of [pickAndOpenS3File] answered by nothing: the
      command returns; [list-buckets] is the only subprocess that ran, no
      [list-objects-v2] and no copy, and only the pick was shown.
    - The key pick answered by nothing: the command returns; the two list
      queries ran and no copy, and only the two picks were shown. *)
Theorem C5_dismissed_prompt_ends_quietly (h : Host) (w : World) :
  (forall (uriFromInput answer : option string),
      JsString.truthy uriFromInput = false ->
      JsString.nonEmpty (Extension.configuredUri h) = false ->
      showInputBox h = Returned answer ->
      JsString.truthy answer = false ->
      Extension.openCsvFromS3 h uriFromInput w = (Returned tt, logUi InputBoxShown w))
  /\ (forall (buckets : list Js.value) (w1 : World) (answer : option string),
        Picker.listBuckets h (pickerEnv h) w = (Returned buckets, w1) ->
        showQuickPick h buckets bucketPrompt = Returned answer ->
        JsString.truthy answer = false ->
        Picker.pickAndOpenS3File h w
          = (Returned tt,
             logUi (QuickPickShown buckets bucketPrompt)
               (logSpawn (bucketsCall h (pickerEnv h)) w)))
  /\ (forall (buckets keys : list Js.value) (w1 w2 : World) (bucket : string)
             (answer : option string),
        Picker.listBuckets h (pickerEnv h) w = (Returned buckets, w1) ->
        showQuickPick h buckets bucketPrompt = Returned (Some bucket) ->
        JsString.nonEmpty bucket = true ->
        Picker.listKeys h bucket (pickerEnv h) (logUi (QuickPickShown buckets bucketPrompt) w1)
          = (Returned keys, w2) ->
        showQuickPick h keys (keyPrompt bucket) = Returned answer ->
        JsString.truthy answer = false ->
        Picker.pickAndOpenS3File h w
          = (Returned tt,
             logUi (QuickPickShown keys (keyPrompt bucket))
               (logSpawn (keysCall h bucket (pickerEnv h))
                  (logUi (QuickPickShown buckets bucketPrompt)
                     (logSpawn (bucketsCall h (pickerEnv h)) w))))).
Proof.
  repeat split.
  - intros uriFromInput answer Harg Hcfg Hbox Hans.
    unfold Extension.openCsvFromS3, Extension.resolveUri.
    rewrite Harg, Hcfg. unfold bind, effect, await. rewrite Hbox.
    destruct answer as [s|]; [| reflexivity].
    simpl in Hans. now rewrite Hans.
  - intros buckets w1 answer Hlist Hpick Hans.
    pose proof (listBuckets_frame h (pickerEnv h) w) as Hw1.
    rewrite Hlist in Hw1. simpl in Hw1. subst w1.
    unfold Picker.pickAndOpenS3File. fold (pickerEnv h).
    unfold tryCatch. unfold bind at 1. rewrite Hlist.
    unfold bind at 1. unfold Picker.quickPick, bind, effect, await.
    fold bucketPrompt. rewrite Hpick, Hans. reflexivity.
  - intros buckets keys w1 w2 bucket answer Hlist Hpick Hne Hkeys Hpick2 Hans.
    pose proof (listBuckets_frame h (pickerEnv h) w) as Hw1.
    rewrite Hlist in Hw1. simpl in Hw1. subst w1.
    pose proof (listKeys_frame h bucket (pickerEnv h)
                  (logUi (QuickPickShown buckets bucketPrompt)
                     (logSpawn (bucketsCall h (pickerEnv h)) w))) as Hw2.
    rewrite Hkeys in Hw2. simpl in Hw2. subst w2.
    unfold Picker.pickAndOpenS3File. fold (pickerEnv h).
    unfold tryCatch. unfold bind at 1. rewrite Hlist.
    unfold bind at 1. unfold Picker.quickPick at 1. unfold bind at 1, effect at 1, await at 1.
    fold bucketPrompt. rewrite Hpick. simpl. rewrite Hne. simpl.
    unfold bind at 1. rewrite Hkeys.
    unfold bind at 1. unfold Picker.quickPick, bind, effect, await.
    fold (keyPrompt bucket). rewrite Hpick2, Hans. reflexivity.
Qed.

Lemma C5_witness :
  let h1 := Demo.plainHost [] in
  let h2 := Demo.host Demo.noConfig (Returned None) [] Demo.objectsJson None None in
  let h3 := Demo.host Demo.noConfig (Returned None) [] Demo.objectsJson (Some 1) None in
  Extension.openCsvFromS3 h1 None Demo.emptyWorld
    = (Returned tt, logUi InputBoxShown Demo.emptyWorld)
  /\ Picker.pickAndOpenS3File h2 Demo.emptyWorld
     = (Returned tt,
        logUi (QuickPickShown twoBuckets bucketPrompt)
          (logSpawn (bucketsCall h2 ∅) Demo.emptyWorld))
  /\ Picker.pickAndOpenS3File h3 Demo.emptyWorld
     = (Returned tt,
        logUi (QuickPickShown [Js.Str "x.csv"] (keyPrompt "b"))
          (logSpawn (keysCall h3 "b" ∅)
             (logUi (QuickPickShown twoBuckets bucketPrompt)
                (logSpawn (bucketsCall h3 ∅) Demo.emptyWorld)))).
Proof.
  intros h1 h2 h3. split; [| split].
  - exact (proj1 (C5_dismissed_prompt_ends_quietly h1 Demo.emptyWorld)
             None None eq_refl eq_refl eq_refl eq_refl).
  - exact (proj1 (proj2 (C5_dismissed_prompt_ends_quietly h2 Demo.emptyWorld))
             twoBuckets (logSpawn (bucketsCall h2 ∅) Demo.emptyWorld) None
             eq_refl eq_refl eq_refl).
  - exact (proj2 (proj2 (C5_dismissed_prompt_ends_quietly h3 Demo.emptyWorld))
             twoBuckets [Js.Str "x.csv"]
             (logSpawn (bucketsCall h3 ∅) Demo.emptyWorld)
             (logSpawn (keysCall h3 "b" ∅)
                (logUi (QuickPickShown twoBuckets bucketPrompt)
                   (logSpawn (bucketsCall h3 ∅) Demo.emptyWorld)))
             "b" None eq_refl eq_refl eq_refl eq_refl eq_refl eq_refl).
Defined.

(** ** Activation *)

(** C7, on [activate] with the auto-open flag on and the locator
    [s3://bucket1/data.csv] configured: the child writes [a,b], prints
    [Access Denied] and exits with code 2.  Activation registers the command,
    runs [openCsvFromS3] once (one copy is started) and returns; the error of
    that run is not ignored, as the comment at the call has it: the user is
    shown [Failed to load CSV. AWS CLI exited with code 2: Access Denied].
    The [catch] of [openCsvFromS3] has shown the message before the
    [.catch(() => {})] of [activate] could see the error. *)
Theorem C7_auto_open_shows_load_error :
  autoOpenOnStartup (config autoOpenDenied) = Some true
  /\ Extension.activate autoOpenDenied Demo.emptyWorld
     = (Returned tt,
        mkWorld ∅
          [mkSpawn "aws"
             ["s3"; "cp"; "s3://bucket1/data.csv"; "-"; "--no-progress";
              "--only-show-errors"]
             {[ "HOME" := "/home/u" ]}]
          []
          [ErrorMessage "Failed to load CSV. AWS CLI exited with code 2: Access Denied"]
          ["s3CsvViewer.openCsvFromS3"]).
Proof. split; [reflexivity | vm_compute; reflexivity]. Qed.

(** What the [.catch(() => {})] of [activate] does drop: an error that
    [openCsvFromS3] rejects with, which is one raised before its [try]. *)
Lemma activate_drops_rejection (h : Host) (w w1 : World) (e : JsError) :
  autoOpenOnStartup (config h) = Some true ->
  Extension.resolveUri h None (logCommand Extension.commandId w) = (Thrown e, w1) ->
  Extension.activate h w = (Returned tt, w1).
Proof.
  intros Hauto Hres. unfold Extension.activate. rewrite Hauto.
  unfold bind, effect, Extension.ignoreOutcome, Extension.openCsvFromS3, bind.
  now rewrite Hres.
Qed.

(** Without the flag, activation only registers the command. *)
Lemma activate_without_auto_open (h : Host) (w : World) :
  autoOpenOnStartup (config h) <> Some true ->
  Extension.activate h w = (Returned tt, logCommand Extension.commandId w).
Proof.
  intros Hoff. unfold Extension.activate, bind, effect.
  destruct (autoOpenOnStartup (config h)) as [[|]|]; try reflexivity.
  now destruct Hoff.
Qed.

(** ** The environment overrides *)

Lemma envExtrasOf_profile (profile region : option string) (v : string) :
  envExtrasOf profile region !! "AWS_PROFILE" = Some v <-> profile = Some v /\ v <> "".
Proof.
  unfold envExtrasOf.
  destruct profile as [[|c p]|], region as [[|d r]|]; simpl;
    rewrite ?lookup_insert_ne by discriminate;
    rewrite ?lookup_insert_eq, ?lookup_empty;
    split; try (intros [= <-]; split; [reflexivity | discriminate]);
    try discriminate; try (intros [[= <-] _]; reflexivity);
    try (intros [[= <-] Hne]; now destruct Hne); try (intros [[=] _]).
Qed.

Lemma envExtrasOf_region (profile region : option string) (v : string) :
  envExtrasOf profile region !! "AWS_REGION" = Some v <-> region = Some v /\ v <> "".
Proof.
  unfold envExtrasOf.
  destruct profile as [[|c p]|], region as [[|d r]|]; simpl;
    rewrite ?lookup_insert_eq;
    rewrite ?lookup_insert_ne by discriminate;
    rewrite ?lookup_empty;
    split; try (intros [= <-]; split; [reflexivity | discriminate]);
    try discriminate; try (intros [[= <-] _]; reflexivity);
    try (intros [[= <-] Hne]; now destruct Hne); try (intros [[=] _]).
Qed.

Lemma envExtrasOf_other (profile region : option string) (k : string) :
  k <> "AWS_PROFILE" -> k <> "AWS_REGION" -> envExtrasOf profile region !! k = None.
Proof.
  intros Hp Hr. unfold envExtrasOf.
  destruct profile as [[|c p]|], region as [[|d r]|]; simpl;
    rewrite ?lookup_insert_ne by congruence; apply lookup_empty.
Qed.



(** The two orchestrators pass the settings trimmed, so a blank profile or
    region is left out like an absent one. *)
Lemma configured_profile_after_trim (h : Host) (v : string) :
  envExtrasOf (Some (Extension.profile h)) (Some (Extension.region h)) !! "AWS_PROFILE"
    = Some v
  <-> (exists s, awsProfile (config h) = Some s /\ JsString.trim s = v) /\ v <> "".
Proof.
  rewrite envExtrasOf_profile. unfold Extension.profile, Extension.trimmedSetting.
  destruct (awsProfile (config h)) as [s|].
  - unfold JsString.orElse.
    destruct (JsString.trim s) as [|c t] eqn:Ht; simpl; split.
    + intros [[= <-] Hne]. now destruct Hne.
    + intros [[s' [[= <-] Hs']] Hne]. rewrite Ht in Hs'. now subst v.
    + intros [[= <-] Hne]. split; [| exact Hne]. now exists s.
    + intros [[s' [[= <-] Hs']] Hne]. rewrite Ht in Hs'. now subst v.
  - split.
    + intros [[= <-] Hne]. now destruct Hne.
    + now intros [[s' [[=] _]] _].
Qed.

(** ** Listing the keys of a bucket *)

(** C9: when [list-objects-v2] ends without error and its output decodes to
    an object whose [Contents] is missing (or otherwise falsy) or is an empty
    list, the list-keys query returns the empty sequence; it does not throw,
    and the one subprocess it ran is all it did. *)
Theorem C9_bucket_without_entries_lists_nothing (h : Host) (bucket : string)
    (env : gmap string string) (w : World) (fields : list (string * Js.value)) :
  let r :=
    execFileResult h (awsCmdName h)
      ["s3api"; "list-objects-v2"; "--bucket"; bucket; "--output"; "json"]
      (mergedEnv h env) in
  exec_error r = None ->
  JSON_parse h (exec_stdout r) = inr (Js.Object fields) ->
  Js.truthy (Js.lookupField "Contents" fields) = false
    \/ Js.lookupField "Contents" fields = Js.Array [] ->
  Picker.listKeys h bucket env w = (Returned [], logSpawn (keysCall h bucket env) w).
Proof.
  intros r Herr Hparse Hnone.
  unfold Picker.listKeys, runAwsCli. unfold bind at 1. unfold bind at 1.
  unfold effect at 1. fold r. rewrite Herr. unfold ret at 1.
  unfold bind at 1. rewrite Hparse. simpl.
  unfold Picker.objectKeys, bind, Picker.getField, ret.
  destruct Hnone as [Hfalsy | Hempty].
  - unfold Js.orElse. rewrite Hfalsy. reflexivity.
  - rewrite Hempty. reflexivity.
Qed.

Lemma C9_witness :
  let h := Demo.host Demo.noConfig (Returned None) [] Demo.noObjectsJson (Some 0) None in
  Picker.listKeys h "a" ∅ Demo.emptyWorld
  = (Returned [], logSpawn (keysCall h "a" ∅) Demo.emptyWorld).
Proof.
  intros h.
  apply (C9_bucket_without_entries_lists_nothing h "a" ∅ Demo.emptyWorld
           [("RequestCharged", Js.Null)]).
  - reflexivity.
  - reflexivity.
  - left. reflexivity.
Defined.

(** In the picker, such a bucket leads to a pick over no entries, and to no
    error message. *)
Example pick_in_empty_bucket :
  let h := Demo.host Demo.noConfig (Returned None) [] Demo.noObjectsJson (Some 0) None in
  ui (snd (Picker.pickAndOpenS3File h Demo.emptyWorld))
  = [QuickPickShown twoBuckets bucketPrompt; QuickPickShown [] (keyPrompt "a")].
Proof. vm_compute. reflexivity. Qed.

(** ** Facts about paths *)

Lemma takeSegment_noSlash (l : list ascii) :
  forallb (fun c => negb (PosixPath.isSlash c)) (PosixPath.takeSegment l) = true.
Proof.
  induction l as [|c l IH]; [reflexivity |].
  simpl. destruct (PosixPath.isSlash c) eqn:E; [reflexivity |].
  simpl. now rewrite E.
Qed.

Lemma forallb_rev {A} (p : A -> bool) (l : list A) :
  forallb p (rev l) = forallb p l.
Proof.
  induction l as [|x l IH]; [reflexivity |].
  simpl. rewrite forallb_app, IH. simpl.
  rewrite andb_true_r. apply andb_comm.
Qed.

Lemma basename_noSlash (p : string) : noSlash (PosixPath.basename p).
Proof.
  unfold noSlash, PosixPath.basename.
  rewrite list_ascii_of_string_of_list_ascii, forallb_rev.
  apply takeSegment_noSlash.
Qed.

Lemma noSlash_append (a b : string) : noSlash a -> noSlash b -> noSlash (a +:+ b).
Proof.
  unfold noSlash. intros Ha Hb. rewrite chars_append, forallb_app.
  now rewrite Ha, Hb.
Qed.

(** Dropping the slashes that end a path leaves something when the path has
    a character that is not a slash. *)
Lemma dropSlashes_keeps (l : list ascii) (c : ascii) :
  In c l -> PosixPath.isSlash c = false ->
  exists c' l', PosixPath.dropSlashes l = c' :: l' /\ PosixPath.isSlash c' = false.
Proof.
  induction l as [|x l IH]; intros Hin Hc; [destruct Hin |].
  simpl. destruct (PosixPath.isSlash x) eqn:Ex.
  - destruct Hin as [-> | Hin]; [congruence |]. now apply IH.
  - now exists x, l.
Qed.

(** The base name of a locator that carries the scheme is never empty. *)
Lemma basename_of_locator (s3Uri : string) :
  JsString.startsWith "s3://" s3Uri = true -> PosixPath.basename s3Uri <> "".
Proof.
  intros Hpre. destruct (startsWith_inv _ _ Hpre) as [r ->].
  unfold PosixPath.basename.
  destruct (dropSlashes_keeps (rev (list_ascii_of_string ("s3://" +:+ r))) "s"%char)
    as (c & l & Hdrop & Hc).
  - apply in_rev. rewrite rev_involutive. now left.
  - reflexivity.
  - rewrite Hdrop. simpl. rewrite Hc. simpl.
    destruct (rev (PosixPath.takeSegment l)) as [|x xs]; discriminate.
Qed.

(** For an accepted locator the fallback name is not used. *)
Lemma fileName_of_locator (s3Uri : string) :
  Extension.rejected s3Uri = false ->
  Extension.fileName s3Uri = PosixPath.basename s3Uri.
Proof.
  intros Hok. unfold Extension.rejected in Hok.
  apply orb_false_elim in Hok as [_ Hpre]. apply negb_false_iff in Hpre.
  pose proof (basename_of_locator _ Hpre) as Hne.
  unfold Extension.fileName, JsString.orElse.
  destruct (PosixPath.basename s3Uri); [now destruct Hne | reflexivity].
Qed.

Lemma fileName_noSlash (s3Uri : string) : noSlash (Extension.fileName s3Uri).
Proof.
  unfold Extension.fileName, JsString.orElse.
  destruct (JsString.nonEmpty (PosixPath.basename s3Uri)).
  - apply basename_noSlash.
  - reflexivity.
Qed.

Lemma fileName_nonEmpty (s3Uri : string) : Extension.fileName s3Uri <> "".
Proof.
  unfold Extension.fileName, JsString.orElse.
  destruct (PosixPath.basename s3Uri) as [|c b]; simpl; discriminate.
Qed.

(** *** Decimal numerals *)

Lemma pretty_N_char_digit (x : N) : isDigit (pretty_N_char x) = true.
Proof.
  unfold pretty_N_char.
  repeat (match goal with |- context [match ?y with _ => _ end] => destruct y end;
          try reflexivity).
Qed.

Lemma pretty_N_go_digits (x : N) :
  forall s, allDigits s -> allDigits (pretty_N_go x s).
Proof.
  induction (N.lt_wf_0 x) as [x _ IH]. intros s Hs.
  destruct (N.eq_dec x 0%N) as [-> | Hpos].
  - now rewrite pretty_N_go_0.
  - rewrite pretty_N_go_step by lia.
    apply IH.
    + apply N.div_lt; lia.
    + unfold allDigits in *. simpl. now rewrite pretty_N_char_digit, Hs.
Qed.

Lemma decimal_digits (n : N) : allDigits (decimal n).
Proof.
  unfold decimal, pretty, pretty_N.
  destruct (decide (n = 0%N)); [reflexivity |].
  now apply pretty_N_go_digits.
Qed.

Lemma decimal_inj (m n : N) : decimal m = decimal n -> m = n.
Proof. apply pretty_N_inj. Qed.








Lemma digit_not_slash (c : ascii) : isDigit c = true -> PosixPath.isSlash c = false.
Proof.
  intros Hd. unfold PosixPath.isSlash.
  destruct (Ascii.eqb_spec c PosixPath.slash) as [-> |]; [discriminate Hd | reflexivity].
Qed.

Lemma allDigits_noSlash (s : string) : allDigits s -> noSlash s.
Proof.
  unfold allDigits, noSlash.
  induction (list_ascii_of_string s) as [|c l IH]; [reflexivity |].
  simpl. intros H. apply andb_prop in H as [Hc Hl].
  now rewrite (digit_not_slash _ Hc), IH.
Qed.

(** A numeral followed by a dash determines the numeral and what follows. *)
Lemma digits_dash_inj (a b x y : string) :
  allDigits a -> allDigits b ->
  a +:+ "-" +:+ x = b +:+ "-" +:+ y -> a = b /\ x = y.
Proof.
  revert b. induction a as [|c a IH]; intros [|d b] Ha Hb Heq.
  - now injection Heq.
  - rewrite append_cons in Heq. injection Heq as <- _.
    unfold allDigits in Hb. simpl in Hb. discriminate Hb.
  - rewrite append_cons in Heq. injection Heq as -> _.
    unfold allDigits in Ha. simpl in Ha. discriminate Ha.
  - rewrite !append_cons in Heq. injection Heq as -> Heq.
    unfold allDigits in *. simpl in Ha, Hb.
    apply andb_prop in Ha as [_ Ha]. apply andb_prop in Hb as [_ Hb].
    destruct (IH b Ha Hb Heq) as [-> ->]. now split.
Qed.

(** *** Joining a directory and a plain name *)

Lemma segments_go_slash (l1 l2 : list ascii) :
  forall cur,
    PosixPath.segments_go cur (l1 ++ PosixPath.slash :: l2)
    = (PosixPath.segments_go cur l1 ++ PosixPath.segments_go [] l2)%list.
Proof.
  induction l1 as [|c l1 IH]; intros cur; [reflexivity |].
  simpl. destruct (PosixPath.isSlash c).
  - now rewrite IH.
  - apply IH.
Qed.

Lemma segments_go_noSlash (l : list ascii) :
  forall cur,
    forallb (fun c => negb (PosixPath.isSlash c)) l = true ->
    PosixPath.segments_go cur l = [string_of_list_ascii (rev cur ++ l)].
Proof.
  induction l as [|c l IH]; intros cur Hl.
  - simpl. now rewrite app_nil_r.
  - simpl in Hl. apply andb_prop in Hl as [Hc Hl]. apply negb_true_iff in Hc.
    simpl. rewrite Hc, (IH _ Hl). simpl. now rewrite <- app_assoc.
Qed.

Lemma segments_plain (f : string) : noSlash f -> PosixPath.segments f = [f].
Proof.
  intros Hf. unfold PosixPath.segments.
  rewrite (segments_go_noSlash _ [] Hf). simpl.
  now rewrite string_of_list_ascii_of_string.
Qed.

Lemma segments_join (d f : string) :
  noSlash f ->
  PosixPath.segments (d +:+ "/" +:+ f) = (PosixPath.segments d ++ [f])%list.
Proof.
  intros Hf. unfold PosixPath.segments.
  rewrite chars_append, chars_append. simpl.
  change ("/"%char) with PosixPath.slash.
  rewrite segments_go_slash. f_equal. apply (segments_plain f Hf).
Qed.


Lemma normalizeStack_snoc (b : bool) (segs : list string) (f : string) :
  plainName f ->
  PosixPath.normalizeStack b (segs ++ [f]) = f :: PosixPath.normalizeStack b segs.
Proof.
  intros (_ & Hne & Hdot & Hdots).
  unfold PosixPath.normalizeStack. rewrite fold_left_app. simpl.
  unfold PosixPath.pushSegment at 1.
  destruct (decide (f = "" \/ f = ".")) as [[?|?]|_]; [contradiction | contradiction |].
  destruct (decide (f = "..")); [contradiction | reflexivity].
Qed.


Lemma joinWith_snoc (l : list string) (f : string) :
  PosixPath.joinWith "/" (l ++ [f])
  = match l with
    | [] => f
    | _ => PosixPath.joinWith "/" l +:+ "/" +:+ f
    end.
Proof.
  induction l as [|x l IH]; [reflexivity |].
  destruct l as [|y l]; [reflexivity |].
  change (PosixPath.joinWith "/" ((x :: y :: l) ++ [f]))
    with (x +:+ "/" +:+ PosixPath.joinWith "/" ((y :: l) ++ [f])).
  rewrite IH.
  change (PosixPath.joinWith "/" (x :: y :: l))
    with (x +:+ "/" +:+ PosixPath.joinWith "/" (y :: l)).
  now rewrite !append_assoc.
Qed.

Lemma joinWith_snoc_nonEmpty (l : list string) (f : string) :
  f <> "" -> PosixPath.joinWith "/" (l ++ [f]) <> "".
Proof.
  intros Hf. rewrite joinWith_snoc. destruct l as [|x l]; [exact Hf |].
  intros H. apply append_eq_nil in H as [_ H]. discriminate H.
Qed.

(** The last character of a non-empty string without slash is no slash. *)
Lemma endsWithSlash_plain (a f : string) :
  noSlash f -> f <> "" -> PosixPath.endsWithSlash (a +:+ f) = false.
Proof.
  intros Hf Hne. unfold PosixPath.endsWithSlash.
  rewrite chars_append, rev_app_distr.
  unfold noSlash in Hf. rewrite <- forallb_rev in Hf.
  destruct (rev (list_ascii_of_string f)) as [|c l] eqn:E.
  - destruct f; [now destruct Hne |].
    apply (f_equal (@length ascii)) in E. rewrite length_rev in E. discriminate E.
  - simpl in *. apply andb_prop in Hf as [Hc _]. now apply negb_true_iff in Hc.
Qed.

Lemma isAbsolute_cons (c : ascii) (f : string) :
  PosixPath.isAbsolute (String c f) = PosixPath.isSlash c.
Proof.
  unfold PosixPath.isAbsolute, PosixPath.isSlash, PosixPath.slash.
  cbn [JsString.startsWith]. rewrite Ascii.eqb_sym.
  now destruct (Ascii.eqb c "/").
Qed.

Lemma isAbsolute_append (d r : string) :
  d <> "" -> PosixPath.isAbsolute (d +:+ r) = PosixPath.isAbsolute d.
Proof.
  destruct d as [|c d]; [now intros [] |]. intros _.
  now rewrite append_cons, !isAbsolute_cons.
Qed.

Lemma isAbsolute_plain (f : string) : noSlash f -> PosixPath.isAbsolute f = false.
Proof.
  destruct f as [|c f]; [reflexivity |].
  rewrite isAbsolute_cons. unfold noSlash. cbn [list_ascii_of_string forallb].
  intros H. apply andb_prop in H as [Hc _]. now apply negb_true_iff in Hc.
Qed.

Lemma dirPrefix_nonEmpty (d : string) :
  d <> "" ->
  dirPrefix d
  = (if PosixPath.isAbsolute d then "/" else "")
    +:+ match rev (PosixPath.normalizeStack (negb (PosixPath.isAbsolute d))
                     (PosixPath.segments d)) with
        | [] => ""
        | st => PosixPath.joinWith "/" st +:+ "/"
        end.
Proof. destruct d; [now intros [] | reflexivity]. Qed.

Lemma normalize_nonEmpty_result (p res : string) :
  p <> "" -> res <> "" ->
  res = PosixPath.joinWith "/"
          (rev (PosixPath.normalizeStack (negb (PosixPath.isAbsolute p))
                  (PosixPath.segments p))) ->
  PosixPath.normalize p
  = (if PosixPath.isAbsolute p then "/" else "")
    +:+ (if PosixPath.endsWithSlash p then res +:+ "/" else res).
Proof.
  intros Hp Hres Heq. unfold PosixPath.normalize.
  destruct p as [|c p]; [now destruct Hp |].
  cbv zeta. rewrite <- Heq.
  destruct res as [|x res]; [now destruct Hres |].
  now destruct (PosixPath.isAbsolute (String c p)), (PosixPath.endsWithSlash (String c p)).
Qed.

Lemma join_plain (d f : string) :
  plainName f -> PosixPath.join d f = dirPrefix d +:+ f.
Proof.
  intros Hplain. pose proof Hplain as (Hns & Hne & _).
  unfold PosixPath.join.
  assert (Hf : JsString.nonEmpty f = true) by (destruct f; [now destruct Hne | reflexivity]).
  rewrite Hf.
  destruct d as [|c d]; simpl JsString.nonEmpty; cbv iota.
  - rewrite (normalize_nonEmpty_result f f Hne Hne).
    + now rewrite (isAbsolute_plain f Hns),
        (endsWithSlash_plain "" f Hns Hne : PosixPath.endsWithSlash f = false).
    + rewrite (isAbsolute_plain f Hns), (segments_plain f Hns).
      now rewrite (normalizeStack_snoc _ [] f Hplain).
  - set (dir := String c d).
    assert (Hdir : dir <> "") by discriminate.
    assert (Hp : dir +:+ "/" +:+ f <> "") by (subst dir; rewrite append_cons; discriminate).
    rewrite (normalize_nonEmpty_result (dir +:+ "/" +:+ f)
               (PosixPath.joinWith "/"
                  (rev (PosixPath.normalizeStack (negb (PosixPath.isAbsolute dir))
                          (PosixPath.segments dir)) ++ [f])) Hp).
    + rewrite (isAbsolute_append dir ("/" +:+ f) Hdir).
      rewrite <- append_assoc, (endsWithSlash_plain _ f Hns Hne).
      rewrite joinWith_snoc, (dirPrefix_nonEmpty dir Hdir).
      destruct (rev _) as [|x st]; rewrite ?append_assoc; reflexivity.
    + now apply joinWith_snoc_nonEmpty.
    + rewrite (isAbsolute_append dir ("/" +:+ f) Hdir), (segments_join dir f Hns).
      now rewrite (normalizeStack_snoc _ _ f Hplain).
Qed.

Lemma append_inj_l (a x y : string) : a +:+ x = a +:+ y -> x = y.
Proof.
  induction a as [|c a IH]; [trivial |].
  rewrite !append_cons. intros [= H]. now apply IH.
Qed.









(** *** A directory given by its segments *)


Lemma segments_empty : PosixPath.segments "" = [""].
Proof. reflexivity. Qed.





(** ** The temporary path *)

Lemma tempName_plain (stamp : N) (name : string) :
  noSlash name -> plainName (tempName stamp name).
Proof.
  intros Hname. unfold tempName. repeat split.
  - repeat apply noSlash_append; try reflexivity; [| exact Hname].
    apply allDigits_noSlash, decimal_digits.
  - rewrite append_cons. discriminate.
  - rewrite append_cons. discriminate.
  - rewrite append_cons. discriminate.
Qed.

Lemma tmpPath_unfold (h : Host) (s3Uri : string) :
  Extension.tmpPath h s3Uri
  = dirPrefix (tmpdir h) +:+ tempName (now h) (Extension.fileName s3Uri).
Proof.
  unfold Extension.tmpPath. fold (tempName (now h) (Extension.fileName s3Uri)).
  apply join_plain, tempName_plain, fileName_noSlash.
Qed.

(** C6 as stated fails: two invocations in the same millisecond, here even
    on two different objects, derive the same temporary path when the
    locators end in the same name. *)
Lemma C6_counterexample :
  let h := Demo.plainHost Demo.twoChunks in
  "s3://a/x.csv" <> "s3://b/x.csv"
  /\ Extension.tmpPath h "s3://a/x.csv" = "/tmp/s3-csv-viewer-1700000000000-x.csv"
  /\ Extension.tmpPath h "s3://b/x.csv" = "/tmp/s3-csv-viewer-1700000000000-x.csv".
Proof. cbv zeta. split; [discriminate | split; vm_compute; reflexivity]. Qed.

(** C6, amended: with the same temporary directory, two invocations derive
    the same path exactly when they read the same [Date.now()] and their
    locators have the same file name; so the paths are distinct whenever the
    time stamps differ or the file names differ.  Nothing random enters the
    path. *)
Theorem C6_same_path_iff_same_stamp_and_name (h1 h2 : Host) (uri1 uri2 : string) :
  tmpdir h1 = tmpdir h2 ->
  (Extension.tmpPath h1 uri1 = Extension.tmpPath h2 uri2
   <-> now h1 = now h2 /\ Extension.fileName uri1 = Extension.fileName uri2).
Proof.
  intros Hdir. rewrite !tmpPath_unfold, Hdir. unfold tempName. split.
  - intros H. apply append_inj_l, append_inj_l in H.
    apply digits_dash_inj in H as [Hstamp Hname]; try apply decimal_digits.
    split; [now apply decimal_inj | exact Hname].
  - now intros [-> ->].
Qed.

Lemma C6_witness :
  Extension.tmpPath (Demo.plainHost Demo.twoChunks) "s3://a/x.csv"
    = Extension.tmpPath (Demo.plainHost Demo.accessDenied) "s3://b/x.csv"
  <-> 1700000000000%N = 1700000000000%N
      /\ Extension.fileName "s3://a/x.csv" = Extension.fileName "s3://b/x.csv".
Proof.
  exact (C6_same_path_iff_same_stamp_and_name
           (Demo.plainHost Demo.twoChunks) (Demo.plainHost Demo.accessDenied)
           "s3://a/x.csv" "s3://b/x.csv" eq_refl).
Defined.



(** A locator that passed the validation has a base name, so its file name
    is that base name and the fallback [s3.csv] is never used. *)
Theorem validated_locator_keeps_its_basename (s3Uri : string) :
  Extension.rejected s3Uri = false ->
  PosixPath.basename s3Uri <> ""
  /\ Extension.fileName s3Uri = PosixPath.basename s3Uri.
Proof.
  intros Hok. split; [| now apply fileName_of_locator].
  apply basename_of_locator.
  unfold Extension.rejected in Hok. apply orb_false_elim in Hok as [_ Hpre].
  now apply negb_false_iff in Hpre.
Qed.

Lemma validated_locator_keeps_its_basename_witness :
  PosixPath.basename "s3://" <> ""
  /\ Extension.fileName "s3://" = PosixPath.basename "s3://".
Proof. exact (validated_locator_keeps_its_basename "s3://" eq_refl). Defined.

Example tmpPath_of_key :
  Extension.tmpPath (Demo.plainHost []) "s3://bucket1/reports/data.csv"
  = "/tmp/s3-csv-viewer-1700000000000-data.csv".
Proof. vm_compute. reflexivity. Qed.

(** A locator that ends in a slash names a directory; its last segment is
    still the file name. *)
Example tmpPath_of_prefix :
  Extension.tmpPath (Demo.plainHost []) "s3://bucket1/reports/"
  = "/tmp/s3-csv-viewer-1700000000000-reports".
Proof. vm_compute. reflexivity. Qed.

(** ** Worked runs *)

(** A locator given as argument, a child that succeeds: the file holds the
    table, the document is opened, shown and set to [csv], and the status
    bar names the locator. *)
Example run_success :
  Extension.openCsvFromS3 (Demo.plainHost Demo.twoChunks) (Some "s3://bucket1/data.csv")
    Demo.emptyWorld
  = (Returned tt,
     mkWorld
       {[ dataCsv := Demo.bytes ("a,b" +:+ Demo.newline +:+ "1,2" +:+ Demo.newline) ]}
       [cpCall (Demo.plainHost Demo.twoChunks) "s3://bucket1/data.csv" ∅]
       []
       [DocumentOpened dataCsv; DocumentShown dataCsv; LanguageSet dataCsv "csv";
        StatusBarMessage "S3 CSV loaded: s3://bucket1/data.csv" 5000]
       []).
Proof. vm_compute. reflexivity. Qed.

(** A string that is no locator: the message, and no subprocess. *)
Example run_not_a_locator :
  Extension.openCsvFromS3 (Demo.plainHost Demo.twoChunks) (Some "not-a-locator")
    Demo.emptyWorld
  = (Returned tt,
     mkWorld ∅ [] []
       [ErrorMessage
          "Failed to load CSV. Please provide a valid S3 URI (e.g., s3://bucket/key.csv)."]
       []).
Proof. vm_compute. reflexivity. Qed.

(** Access denied after three bytes: the message carries the stderr text
    and the file is gone. *)
Example run_access_denied :
  Extension.openCsvFromS3 (Demo.plainHost Demo.accessDenied) (Some "s3://bucket1/data.csv")
    Demo.emptyWorld
  = (Returned tt,
     mkWorld ∅
       [cpCall (Demo.plainHost Demo.accessDenied) "s3://bucket1/data.csv" ∅]
       []
       [ErrorMessage "Failed to load CSV. AWS CLI exited with code 2: Access Denied"]
       []).
Proof. vm_compute. reflexivity. Qed.

(** The sink fails after the first chunk: the child is killed, the error of
    the stream is the one shown, and the file is gone. *)
Example run_sink_failure :
  Extension.openCsvFromS3
    (Demo.plainHost [StdoutData (Demo.bytes "a,b"); OutError "ENOSPC: no space left on device"])
    (Some "s3://bucket1/data.csv") Demo.emptyWorld
  = (Returned tt,
     mkWorld ∅
       [cpCall (Demo.plainHost []) "s3://bucket1/data.csv" ∅]
       ["SIGKILL"]
       [ErrorMessage "Failed to load CSV. ENOSPC: no space left on device"]
       []).
Proof. vm_compute. reflexivity. Qed.

(** The write to the file fails after the child has exited with code 0:
    the stream's error comes before the callback of [out.close], and it is
    the one shown; the child is sent the signal and the file is gone. *)
Example run_late_sink_failure :
  Extension.openCsvFromS3
    (Demo.plainHost [StdoutData (Demo.bytes "a,b"); ChildClose (Some 0%Z);
                     OutError "ENOSPC: no space left on device"; OutClose])
    (Some "s3://bucket1/data.csv") Demo.emptyWorld
  = (Returned tt,
     mkWorld ∅
       [cpCall (Demo.plainHost []) "s3://bucket1/data.csv" ∅]
       ["SIGKILL"]
       [ErrorMessage "Failed to load CSV. ENOSPC: no space left on device"]
       []).
Proof. vm_compute. reflexivity. Qed.

(** The stream closes as soon as stdout has ended, before the child's
    close: the callback of [out.close] runs at once, with all of the stderr
    text. *)
Example run_stream_closes_first :
  Extension.fetchCsvToTemp
    (Demo.plainHost [StdoutData (Demo.bytes "a,b"); OutClose; StderrData "Access ";
                     StderrData "Denied"; ChildClose (Some 2%Z)])
    "s3://bucket1/data.csv" None None Demo.emptyWorld
  = (Thrown (Error "AWS CLI exited with code 2: Access Denied"),
     mkWorld ∅ [cpCall (Demo.plainHost []) "s3://bucket1/data.csv" ∅] [] [] []).
Proof. vm_compute. reflexivity. Qed.

(** The child has closed and the stream has not: the promise waits for the
    callback of [out.close]. *)
Example run_waits_for_the_stream :
  fst (Extension.fetchCsvToTemp
         (Demo.plainHost [StdoutData (Demo.bytes "a,b"); ChildClose (Some 0%Z)])
         "s3://bucket1/data.csv" None None Demo.emptyWorld)
  = Pending.
Proof. vm_compute. reflexivity. Qed.

(** A child that never ends leaves the command waiting. *)
Example run_pending :
  fst (Extension.openCsvFromS3 (Demo.plainHost [StdoutData (Demo.bytes "a,b")])
         (Some "s3://bucket1/data.csv") Demo.emptyWorld)
  = Pending.
Proof. vm_compute. reflexivity. Qed.

(** The picker: buckets [a] and [b], the user takes [b], then [x.csv]; the
    copy is started on [s3://b/x.csv]. *)
Example run_picker :
  let h := Demo.host Demo.noConfig (Returned None) Demo.twoChunks Demo.objectsJson
             (Some 1) (Some 0) in
  spawned (snd (Picker.pickAndOpenS3File h Demo.emptyWorld))
  = [bucketsCall h ∅; keysCall h "b" ∅; cpCall h "s3://b/x.csv" ∅].
Proof. vm_compute. reflexivity. Qed.

(** The picker after a failed transfer: the message is shown and the
    partial file is left behind. *)
Example run_picker_access_denied :
  let h := Demo.host Demo.noConfig (Returned None) Demo.accessDenied Demo.objectsJson
             (Some 1) (Some 0) in
  let w := snd (Picker.pickAndOpenS3File h Demo.emptyWorld) in
  files w = {[ "/tmp/s3-viewer-1700000000000-x.csv" := Demo.bytes "a,b" ]}
  /\ last (ui w) = Some (ErrorMessage "Error: AWS CLI exited with code 2: Access Denied").
Proof. vm_compute. split; reflexivity. Qed.

(** Paths and strings. *)
Example basename_key : PosixPath.basename "s3://bucket/dir/data.csv" = "data.csv".
Proof. reflexivity. Qed.

Example basename_trailing_slash : PosixPath.basename "s3://bucket/dir/" = "dir".
Proof. reflexivity. Qed.

Example basename_scheme_only : PosixPath.basename "s3://" = "s3:".
Proof. reflexivity. Qed.

Example basename_slashes : PosixPath.basename "//" = "".
Proof. reflexivity. Qed.

Example join_dotdot : PosixPath.join "/var/tmp/../x//" "f" = "/var/x/f".
Proof. vm_compute. reflexivity. Qed.

Example join_relative_up : PosixPath.join "../a/../.." "f" = "../../f".
Proof. vm_compute. reflexivity. Qed.

Example normalize_root_up : PosixPath.normalize "/../" = "/".
Proof. vm_compute. reflexivity. Qed.

Example normalize_dot : PosixPath.normalize "./" = "./".
Proof. vm_compute. reflexivity. Qed.

Example trim_both : JsString.trim "  s3://b/k.csv " = "s3://b/k.csv".
Proof. reflexivity. Qed.

Example trim_blank : JsString.trim "   " = "".
Proof. reflexivity. Qed.

Example truthy_zero : Js.truthy (Js.Number 0) = false.
Proof. reflexivity. Qed.

Example truthy_empty_array : Js.truthy (Js.Array []) = true.
Proof. reflexivity. Qed.

(** * More of the two programs *)

(** ** Vocabulary *)

(** The [validateInput] option of the input box of [openCsvFromS3]:
    [undefined] accepts the value, a string is the complaint shown. *)
Definition validateInput (val : string) : option string :=
  if JsString.startsWith "s3://" val then None else Some "Must start with s3://".

(** A decoded entry that carries the string [value] under [name]. *)
Definition hasString (name : string) (item : Js.value) (value : string) : Prop :=
  exists fields, item = Js.Object fields /\ Js.lookupField name fields = Js.Str value.

(** The locator the picker builds from a bucket and a key. *)
Definition pickedUri (bucket key : string) : string :=
  "s3://" +:+ bucket +:+ "/" +:+ key.

(** The world after the picker has listed the buckets and shown the pick
    among them. *)
Definition afterBucketPick (h : Host) (w : World) (buckets : list Js.value) : World :=
  logUi (QuickPickShown buckets bucketPrompt) (logSpawn (bucketsCall h (pickerEnv h)) w).

(** The temporary path of the picker's retrieval. *)
Definition pickerTmpPath (h : Host) (s3Uri : string) : string :=
  PosixPath.join (tmpdir h)
    ("s3-viewer-" +:+ decimal (now h) +:+ "-" +:+ PosixPath.basename s3Uri).

(** ** What a transfer leaves alone *)

Section MoreFrames.

Variable h : Host.

Lemma awsS3CpToFile_other (s3Uri dest : string) (envExtras : gmap string string)
    (w : World) (p : string) :
  p <> dest ->
  files (snd (awsS3CpToFile h s3Uri dest envExtras w)) !! p = files w !! p
  /\ commands (snd (awsS3CpToFile h s3Uri dest envExtras w)) = commands w.
Proof.
  intros Hp.
  destruct (awsS3CpToFile_frame h s3Uri dest envExtras w) as (_ & _ & Hc & Hf & _).
  split; [now apply Hf | exact Hc].
Qed.

Lemma fetchCsvToTemp_other (s3Uri : string) (profile region : option string)
    (w : World) (p : string) :
  p <> Extension.tmpPath h s3Uri ->
  files (snd (Extension.fetchCsvToTemp h s3Uri profile region w)) !! p = files w !! p
  /\ commands (snd (Extension.fetchCsvToTemp h s3Uri profile region w)) = commands w.
Proof.
  intros Hp. unfold Extension.fetchCsvToTemp.
  destruct (Extension.rejected s3Uri); [now split |].
  destruct (awsS3CpToFile_other s3Uri (Extension.tmpPath h s3Uri)
              (envExtrasOf profile region) w p Hp) as [Hf Hc].
  unfold tryCatch, bind, unlink, throw, ret.
  destruct (awsS3CpToFile h s3Uri _ _ w) as [[[]|e|] w1]; simpl in *;
    try (now split).
  destruct (files w1 !! Extension.tmpPath h s3Uri); simpl; [| now split].
  split; [| exact Hc]. now rewrite lookup_delete_ne.
Qed.

End MoreFrames.

(** ** The copy subprocess: its environment, its files, its end *)

Lemma envExtrasOf_profile_none (profile region : option string) :
  JsString.truthy profile = false -> envExtrasOf profile region !! "AWS_PROFILE" = None.
Proof.
  intros Hp. destruct (envExtrasOf profile region !! "AWS_PROFILE") as [v|] eqn:E;
    [| reflexivity].
  apply envExtrasOf_profile in E as [-> Hv]. destruct v; [now destruct Hv | discriminate Hp].
Qed.

Lemma envExtrasOf_region_none (profile region : option string) :
  JsString.truthy region = false -> envExtrasOf profile region !! "AWS_REGION" = None.
Proof.
  intros Hr. destruct (envExtrasOf profile region !! "AWS_REGION") as [v|] eqn:E;
    [| reflexivity].
  apply envExtrasOf_region in E as [-> Hv]. destruct v; [now destruct Hv | discriminate Hr].
Qed.

(** The environment of the copy started by [fetchCsvToTemp]: a profile that
    is given replaces an [AWS_PROFILE] inherited from [process.env], and when
    none is given the inherited one stays; the same for the region; every
    other variable is inherited as it is. *)
Theorem copy_environment_overrides_and_inherits (h : Host) (s3Uri : string)
    (profile region : option string) (w : World) :
  Extension.rejected s3Uri = false ->
  exists call,
    last (spawned (snd (Extension.fetchCsvToTemp h s3Uri profile region w))) = Some call
    /\ sc_env call !! "AWS_PROFILE"
       = (if JsString.truthy profile then profile else environ h !! "AWS_PROFILE")
    /\ sc_env call !! "AWS_REGION"
       = (if JsString.truthy region then region else environ h !! "AWS_REGION")
    /\ (forall k, k <> "AWS_PROFILE" -> k <> "AWS_REGION" ->
                  sc_env call !! k = environ h !! k).
Proof.
  intros Hok. destruct (fetchCsvToTemp_frame h s3Uri profile region w Hok) as [Hs _].
  exists (cpCall h s3Uri (envExtrasOf profile region)).
  split; [rewrite Hs; apply last_snoc |].
  unfold cpCall, mergedEnv. simpl. split; [| split].
  - destruct (JsString.truthy profile) eqn:Hp.
    + destruct profile as [p|]; [| discriminate Hp].
      apply lookup_union_Some_l, envExtrasOf_profile.
      split; [reflexivity | intros ->; discriminate Hp].
    + now rewrite lookup_union_r by now apply envExtrasOf_profile_none.
  - destruct (JsString.truthy region) eqn:Hr.
    + destruct region as [r|]; [| discriminate Hr].
      apply lookup_union_Some_l, envExtrasOf_region.
      split; [reflexivity | intros ->; discriminate Hr].
    + now rewrite lookup_union_r by now apply envExtrasOf_region_none.
  - intros k Hp Hr. now rewrite lookup_union_r by now apply envExtrasOf_other.
Qed.

(** The host of the example: [AWS_PROFILE] and [HOME] are set in
    [process.env]. *)
Definition profiledHost : Host :=
  mkHost "linux" {[ "AWS_PROFILE" := "old"; "HOME" := "/home/u" ]} "/tmp" 1700000000000
    Demo.noConfig (fun _ _ _ => Demo.twoChunks) (fun _ _ _ => mkExec None "" "")
    Demo.parse (Returned None) (fun _ _ => Returned None)
    (fun _ _ => inr "csv") (fun _ => inr tt) (fun _ _ => inr tt).

Lemma copy_environment_witness :
  exists call,
    last (spawned (snd (Extension.fetchCsvToTemp profiledHost "s3://bucket1/data.csv"
                          (Some "dev") None Demo.emptyWorld))) = Some call
    /\ sc_env call !! "AWS_PROFILE" = Some "dev"
    /\ sc_env call !! "AWS_REGION" = None
    /\ (forall k, k <> "AWS_PROFILE" -> k <> "AWS_REGION" ->
                  sc_env call !! k = environ profiledHost !! k).
Proof.
  exact (copy_environment_overrides_and_inherits profiledHost "s3://bucket1/data.csv"
           (Some "dev") None Demo.emptyWorld eq_refl).
Defined.

(** Whatever the child does and however the call ends, [fetchCsvToTemp]
    changes no file but the one at its temporary path, shows nothing to the
    user and registers nothing. *)
Theorem fetchCsvToTemp_touches_only_its_file (h : Host) (s3Uri : string)
    (profile region : option string) (w : World) (p : string) :
  p <> Extension.tmpPath h s3Uri ->
  let w' := snd (Extension.fetchCsvToTemp h s3Uri profile region w) in
  files w' !! p = files w !! p /\ ui w' = ui w /\ commands w' = commands w.
Proof.
  intros Hp w'. subst w'.
  destruct (fetchCsvToTemp_other h s3Uri profile region w p Hp) as [Hf Hc].
  split; [exact Hf |]. split; [| exact Hc].
  destruct (Extension.rejected s3Uri) eqn:Hrej.
  - unfold Extension.fetchCsvToTemp. now rewrite Hrej.
  - now destruct (fetchCsvToTemp_frame h s3Uri profile region w Hrej).
Qed.

Definition keptWorld : World :=
  mkWorld {[ "/tmp/notes.txt" := Demo.bytes "keep" ]} [] [] [] [].

Lemma fetchCsvToTemp_touches_only_its_file_witness :
  let w' := snd (Extension.fetchCsvToTemp (Demo.plainHost Demo.accessDenied)
                   "s3://bucket1/data.csv" None None keptWorld) in
  files w' !! "/tmp/notes.txt" = files keptWorld !! "/tmp/notes.txt"
  /\ ui w' = ui keptWorld /\ commands w' = commands keptWorld.
Proof.
  apply (fetchCsvToTemp_touches_only_its_file (Demo.plainHost Demo.accessDenied)
           "s3://bucket1/data.csv" None None keptWorld "/tmp/notes.txt").
  vm_compute. discriminate.
Defined.

(** There is no timeout: while the child only sends data and neither closes
    nor fails, [fetchCsvToTemp] does not return; the file holds what was
    written so far and no cleanup runs. *)
Theorem transfer_without_close_stays_pending (h : Host) (s3Uri : string)
    (profile region : option string) (w : World) :
  Extension.rejected s3Uri = false ->
  forallb isData
    (childEvents h (awsCmdName h) (cpArgs s3Uri) (mergedEnv h (envExtrasOf profile region)))
    = true ->
  Extension.fetchCsvToTemp h s3Uri profile region w
  = (Pending,
     setFiles
       (<[Extension.tmpPath h s3Uri :=
            stdoutBytes (childEvents h (awsCmdName h) (cpArgs s3Uri)
                           (mergedEnv h (envExtrasOf profile region)))]> (files w))
       (logSpawn (cpCall h s3Uri (envExtrasOf profile region)) w)).
Proof.
  intros Hok Hdata. unfold Extension.fetchCsvToTemp. rewrite Hok.
  unfold tryCatch, bind at 1. rewrite awsS3CpToFile_unfold, deliver_handle.
  change (childEvents h (awsCmdName h) (cpArgs s3Uri)
            (mergedEnv h (envExtrasOf profile region)))
    with (copyEvents h s3Uri (envExtrasOf profile region)) in *.
  rewrite (handle_data (Extension.tmpPath h s3Uri) _ newTransfer _ [] Hdata eq_refl).
  - simpl. unfold createWriteStream, setFiles, logSpawn, cpCall. simpl.
    now rewrite insert_insert_eq.
  - simpl. apply lookup_insert_eq.
Qed.

Lemma transfer_without_close_stays_pending_witness :
  Extension.fetchCsvToTemp (Demo.plainHost [StdoutData (Demo.bytes "a,b")])
    "s3://bucket1/data.csv" None None Demo.emptyWorld
  = (Pending,
     mkWorld {[ dataCsv := Demo.bytes "a,b" ]}
       [cpCall (Demo.plainHost []) "s3://bucket1/data.csv" ∅] [] [] []).
Proof.
  exact (transfer_without_close_stays_pending
           (Demo.plainHost [StdoutData (Demo.bytes "a,b")])
           "s3://bucket1/data.csv" None None Demo.emptyWorld eq_refl eq_refl).
Defined.

(** The child is sent SIGKILL once for every error of the write stream,
    whether it comes before or after the child's close or after the promise
    has settled, and never otherwise: not when it could not be spawned, not
    when it ends by itself, whatever its exit code. *)
Theorem child_killed_only_when_sink_fails (h : Host) (s3Uri dest : string)
    (envExtras : gmap string string) (w : World) :
  killed (snd (awsS3CpToFile h s3Uri dest envExtras w))
  = (killed w
     ++ repeat "SIGKILL"
          (length (List.filter isOutError
                     (childEvents h
                        (if String.eqb (platform h) "win32" then "aws.exe" else "aws")
                        ["s3"; "cp"; s3Uri; "-"; "--no-progress"; "--only-show-errors"]
                        (envExtras ∪ environ h)))))%list.
Proof.
  destruct (awsS3CpToFile_frame h s3Uri dest envExtras w) as (_ & _ & _ & _ & _ & Hk).
  rewrite Hk. reflexivity.
Qed.

Lemma child_killed_only_when_sink_fails_witness :
  killed (snd (awsS3CpToFile
                 (Demo.plainHost [StdoutData (Demo.bytes "a,b"); OutError "EIO: i/o error";
                                  OutClose; ChildClose (Some 0%Z)])
                 "s3://bucket1/data.csv" dataCsv ∅ Demo.emptyWorld))
  = ["SIGKILL"]
  /\ killed (snd (awsS3CpToFile (Demo.plainHost lateSinkFailure)
                    "s3://bucket1/data.csv" dataCsv ∅ Demo.emptyWorld))
     = ["SIGKILL"]
  /\ killed (snd (awsS3CpToFile (Demo.plainHost Demo.accessDenied)
                    "s3://bucket1/data.csv" dataCsv ∅ Demo.emptyWorld))
     = [].
Proof.
  split; [| split].
  - exact (child_killed_only_when_sink_fails
             (Demo.plainHost [StdoutData (Demo.bytes "a,b"); OutError "EIO: i/o error";
                              OutClose; ChildClose (Some 0%Z)])
             "s3://bucket1/data.csv" dataCsv ∅ Demo.emptyWorld).
  - exact (child_killed_only_when_sink_fails (Demo.plainHost lateSinkFailure)
             "s3://bucket1/data.csv" dataCsv ∅ Demo.emptyWorld).
  - exact (child_killed_only_when_sink_fails (Demo.plainHost Demo.accessDenied)
             "s3://bucket1/data.csv" dataCsv ∅ Demo.emptyWorld).
Defined.

(** ** [openCsvFromS3] from the resolved locator to the editor *)

(** A transfer that runs to its end with exit code 0 and a document that
    the editor opens and shows: the command returns, the file holds the
    object, the document on the temporary path is opened and shown, its
    language is set to [csv] only when the editor did not detect it, and the
    status bar names the locator. *)
Theorem openCsvFromS3_loads_and_shows (h : Host) (uriFromInput : option string)
    (locator languageId : string) (evs : list ChildEvent) (w w1 : World) :
  let tmp := Extension.tmpPath h locator in
  Extension.resolveUri h uriFromInput w = (Returned (Some locator), w1) ->
  Extension.rejected locator = false ->
  runsToEnd (copyEvents h locator (configuredEnv h)) evs (Some 0%Z) ->
  openTextDocument h tmp (Some (stdoutBytes evs)) = inr languageId ->
  showTextDocument h tmp = inr tt ->
  (languageId <> "csv" -> setTextDocumentLanguage h tmp "csv" = inr tt) ->
  exists w',
    Extension.openCsvFromS3 h uriFromInput w = (Returned tt, w')
    /\ files w' !! tmp = Some (stdoutBytes evs)
    /\ ui w'
       = (ui w1 ++ [DocumentOpened tmp; DocumentShown tmp]
            ++ (if String.eqb languageId "csv" then [] else [LanguageSet tmp "csv"])
            ++ [StatusBarMessage ("S3 CSV loaded: " +:+ locator) 5000])%list.
Proof.
  intros tmp Hres Hok Hrun Hopen Hshow Hset.
  rewrite (openCsvFromS3_resolved h _ w w1 locator Hres (rejected_false_nonEmpty _ Hok)).
  unfold Extension.loadAndShow. unfold bind at 1.
  rewrite (fetchCsvToTemp_succeeds h locator _ _ evs w1 Hok Hrun).
  fold tmp. unfold bind at 1, openDocument.
  assert (Hfile : files (afterTransfer h locator tmp (configuredEnv h) evs w1) !! tmp
                  = Some (stdoutBytes evs))
    by (unfold afterTransfer; simpl; apply lookup_insert_eq).
  unfold configuredEnv in Hfile. rewrite Hfile, Hopen.
  unfold bind at 1, showDocument. rewrite Hshow.
  unfold bind at 1, effect.
  destruct (String.eqb_spec languageId "csv") as [Hcsv | Hcsv].
  - unfold bind, effect, ret. simpl. eexists.
    split; [reflexivity |]. split; [apply lookup_insert_eq |].
    unfold afterTransfer. simpl. rewrite <- ?app_assoc. reflexivity.
  - unfold setLanguage. rewrite (Hset Hcsv). unfold bind, effect. simpl. eexists.
    split; [reflexivity |]. split; [apply lookup_insert_eq |].
    unfold afterTransfer. simpl. rewrite <- ?app_assoc. reflexivity.
Qed.

Lemma openCsvFromS3_loads_and_shows_witness :
  exists w',
    Extension.openCsvFromS3 (Demo.plainHost Demo.twoChunks) (Some "s3://bucket1/data.csv")
      Demo.emptyWorld = (Returned tt, w')
    /\ files w' !! dataCsv
       = Some (Demo.bytes ("a,b" +:+ Demo.newline +:+ "1,2" +:+ Demo.newline))
    /\ ui w'
       = [DocumentOpened dataCsv; DocumentShown dataCsv; LanguageSet dataCsv "csv";
          StatusBarMessage "S3 CSV loaded: s3://bucket1/data.csv" 5000].
Proof.
  exact (openCsvFromS3_loads_and_shows (Demo.plainHost Demo.twoChunks)
           (Some "s3://bucket1/data.csv") "s3://bucket1/data.csv" "plaintext"
           [StdoutData (Demo.bytes ("a,b" +:+ Demo.newline)); StderrData "";
            StdoutData (Demo.bytes ("1,2" +:+ Demo.newline))]
           Demo.emptyWorld Demo.emptyWorld eq_refl eq_refl
           (conj eq_refl (or_introl eq_refl)) eq_refl eq_refl (fun _ => eq_refl)).
Defined.

(** A transfer that fails (as [failsWith] has it: an exit code other than
    0 at its end, or an error of the write stream or of the child, also one
    that follows the child's close): the command still returns; the user
    sees one error message, which carries the transfer's error (for an exit
    code, the text the child wrote to stderr, trimmed); no document is opened
    and no file is left at the temporary path. *)
Theorem openCsvFromS3_reports_failed_transfer (h : Host) (uriFromInput : option string)
    (locator : string) (e : JsError) (w w1 : World) :
  Extension.resolveUri h uriFromInput w = (Returned (Some locator), w1) ->
  Extension.rejected locator = false ->
  failsWith (copyEvents h locator (configuredEnv h)) e ->
  exists w',
    Extension.openCsvFromS3 h uriFromInput w = (Returned tt, w')
    /\ files w' !! Extension.tmpPath h locator = None
    /\ ui w' = (ui w1 ++ [ErrorMessage ("Failed to load CSV. " +:+ message e)])%list.
Proof.
  intros Hres Hok Hfail.
  rewrite (openCsvFromS3_resolved h _ w w1 locator Hres (rejected_false_nonEmpty _ Hok)).
  destruct (fetchCsvToTemp_rethrows h locator (Some (Extension.profile h))
              (Some (Extension.region h)) e w1 Hok
              (awsS3CpToFile_failsWith h locator _ _ e w1 Hfail))
    as (w2 & Hrun & Hfile & _ & Hui).
  unfold Extension.loadAndShow. unfold bind at 1. rewrite Hrun.
  eexists. split; [reflexivity |]. simpl. split; [exact Hfile | now rewrite Hui].
Qed.

Lemma openCsvFromS3_reports_failed_transfer_witness :
  (exists w',
      Extension.openCsvFromS3 (Demo.plainHost Demo.accessDenied)
        (Some "s3://bucket1/data.csv") Demo.emptyWorld = (Returned tt, w')
      /\ files w' !! dataCsv = None
      /\ ui w'
         = [ErrorMessage "Failed to load CSV. AWS CLI exited with code 2: Access Denied"])
  /\ (exists w',
        Extension.openCsvFromS3 (Demo.plainHost lateSinkFailure)
          (Some "s3://bucket1/data.csv") Demo.emptyWorld = (Returned tt, w')
        /\ files w' !! dataCsv = None
        /\ ui w'
           = [ErrorMessage "Failed to load CSV. ENOSPC: no space left on device, write"]).
Proof.
  split.
  - apply (openCsvFromS3_reports_failed_transfer (Demo.plainHost Demo.accessDenied)
             (Some "s3://bucket1/data.csv") "s3://bucket1/data.csv"
             (Error "AWS CLI exited with code 2: Access Denied")
             Demo.emptyWorld Demo.emptyWorld eq_refl eq_refl).
    left. exists [StdoutData (Demo.bytes "a,b"); StderrData "Access Denied"], (Some 2%Z).
    split; [split; [reflexivity | left; reflexivity] |].
    split; [discriminate | reflexivity].
  - apply (openCsvFromS3_reports_failed_transfer (Demo.plainHost lateSinkFailure)
             (Some "s3://bucket1/data.csv") "s3://bucket1/data.csv"
             (Error "ENOSPC: no space left on device, write")
             Demo.emptyWorld Demo.emptyWorld eq_refl eq_refl).
    right.
    exists [StdoutData (Demo.bytes "a,b"); StderrData "Access Denied"; ChildClose (Some 2%Z)],
           [OutClose], (OutError "ENOSPC: no space left on device, write"),
           "ENOSPC: no space left on device, write".
    repeat split; reflexivity.
Defined.

(** When the transfer runs to its end with exit code 0 but the editor
    cannot open the document, the user sees the editor's error, and the
    downloaded file stays at the temporary path: the cleanup covers the
    transfer only. *)
Theorem openCsvFromS3_keeps_file_when_opening_fails (h : Host)
    (uriFromInput : option string) (locator : string) (evs : list ChildEvent)
    (e : JsError) (w w1 : World) :
  Extension.resolveUri h uriFromInput w = (Returned (Some locator), w1) ->
  Extension.rejected locator = false ->
  runsToEnd (copyEvents h locator (configuredEnv h)) evs (Some 0%Z) ->
  openTextDocument h (Extension.tmpPath h locator) (Some (stdoutBytes evs)) = inl e ->
  exists w',
    Extension.openCsvFromS3 h uriFromInput w = (Returned tt, w')
    /\ files w' !! Extension.tmpPath h locator = Some (stdoutBytes evs)
    /\ ui w' = (ui w1 ++ [ErrorMessage ("Failed to load CSV. " +:+ message e)])%list.
Proof.
  intros Hres Hok Hrun Hopen.
  rewrite (openCsvFromS3_resolved h _ w w1 locator Hres (rejected_false_nonEmpty _ Hok)).
  unfold Extension.loadAndShow. unfold bind at 1.
  rewrite (fetchCsvToTemp_succeeds h locator _ _ evs w1 Hok Hrun).
  unfold bind at 1, openDocument.
  assert (Hfile : files (afterTransfer h locator (Extension.tmpPath h locator)
                           (configuredEnv h) evs w1)
                  !! Extension.tmpPath h locator = Some (stdoutBytes evs))
    by (unfold afterTransfer; simpl; apply lookup_insert_eq).
  unfold configuredEnv in Hfile. rewrite Hfile, Hopen.
  eexists. split; [reflexivity |]. split; [exact Hfile | reflexivity].
Qed.

(** A host whose editor refuses every document. *)
Definition refusingHost : Host :=
  mkHost "linux" ∅ "/tmp" 1700000000000 Demo.noConfig
    (fun _ _ _ => Demo.twoChunks) (fun _ _ _ => mkExec None "" "")
    Demo.parse (Returned None) (fun _ _ => Returned None)
    (fun _ _ => inl (Error "File seems to be binary")) (fun _ => inr tt)
    (fun _ _ => inr tt).

Lemma openCsvFromS3_keeps_file_when_opening_fails_witness :
  exists w',
    Extension.openCsvFromS3 refusingHost (Some "s3://bucket1/data.csv") Demo.emptyWorld
      = (Returned tt, w')
    /\ files w' !! dataCsv
       = Some (Demo.bytes ("a,b" +:+ Demo.newline +:+ "1,2" +:+ Demo.newline))
    /\ ui w' = [ErrorMessage "Failed to load CSV. File seems to be binary"].
Proof.
  exact (openCsvFromS3_keeps_file_when_opening_fails refusingHost
           (Some "s3://bucket1/data.csv") "s3://bucket1/data.csv"
           [StdoutData (Demo.bytes ("a,b" +:+ Demo.newline)); StderrData "";
            StdoutData (Demo.bytes ("1,2" +:+ Demo.newline))]
           (Error "File seems to be binary") Demo.emptyWorld Demo.emptyWorld
           eq_refl eq_refl (conj eq_refl (or_introl eq_refl)) eq_refl).
Defined.

(** The same when the document opens but the editor cannot show it, or
    cannot set its language: the user sees that error after what had
    succeeded, the status bar message is not set, and the downloaded file
    stays. *)
Theorem openCsvFromS3_reports_editor_failure (h : Host) (uriFromInput : option string)
    (locator languageId : string) (evs : list ChildEvent) (e : JsError) (w w1 : World) :
  let tmp := Extension.tmpPath h locator in
  let failed (shown : list UiEvent) :=
    exists w',
      Extension.openCsvFromS3 h uriFromInput w = (Returned tt, w')
      /\ files w' !! tmp = Some (stdoutBytes evs)
      /\ ui w'
         = (ui w1 ++ shown ++ [ErrorMessage ("Failed to load CSV. " +:+ message e)])%list in
  Extension.resolveUri h uriFromInput w = (Returned (Some locator), w1) ->
  Extension.rejected locator = false ->
  runsToEnd (copyEvents h locator (configuredEnv h)) evs (Some 0%Z) ->
  openTextDocument h tmp (Some (stdoutBytes evs)) = inr languageId ->
  (showTextDocument h tmp = inl e -> failed [DocumentOpened tmp])
  /\ (showTextDocument h tmp = inr tt ->
      languageId <> "csv" ->
      setTextDocumentLanguage h tmp "csv" = inl e ->
      failed [DocumentOpened tmp; DocumentShown tmp]).
Proof.
  intros tmp failed Hres Hok Hrun Hopen. subst failed.
  assert (Hfile : files (afterTransfer h locator tmp (configuredEnv h) evs w1) !! tmp
                  = Some (stdoutBytes evs))
    by (unfold afterTransfer; simpl; apply lookup_insert_eq).
  unfold configuredEnv in Hfile.
  split; [intros Hshow | intros Hshow Hcsv Hset];
    rewrite (openCsvFromS3_resolved h _ w w1 locator Hres (rejected_false_nonEmpty _ Hok));
    unfold Extension.loadAndShow; unfold bind at 1;
    rewrite (fetchCsvToTemp_succeeds h locator _ _ evs w1 Hok Hrun);
    fold tmp; unfold bind at 1, openDocument; rewrite Hfile, Hopen;
    unfold bind at 1, showDocument; rewrite Hshow.
  - simpl. eexists.
    split; [reflexivity |]. split; [apply lookup_insert_eq |].
    unfold afterTransfer. simpl. rewrite <- ?app_assoc. reflexivity.
  - unfold bind at 1, effect.
    destruct (String.eqb_spec languageId "csv") as [Heq | _]; [now destruct Hcsv |].
    unfold setLanguage. rewrite Hset. simpl. eexists.
    split; [reflexivity |]. split; [apply lookup_insert_eq |].
    unfold afterTransfer. simpl. rewrite <- ?app_assoc. reflexivity.
Qed.

Lemma openCsvFromS3_reports_editor_failure_witness :
  (exists w',
      Extension.openCsvFromS3 hiddenEditorHost (Some "s3://bucket1/data.csv")
        Demo.emptyWorld = (Returned tt, w')
      /\ files w' !! dataCsv
         = Some (Demo.bytes ("a,b" +:+ Demo.newline +:+ "1,2" +:+ Demo.newline))
      /\ ui w' = [DocumentOpened dataCsv; ErrorMessage "Failed to load CSV. No editor"])
  /\ (exists w',
        Extension.openCsvFromS3 fixedLanguageHost (Some "s3://bucket1/data.csv")
          Demo.emptyWorld = (Returned tt, w')
        /\ files w' !! dataCsv
           = Some (Demo.bytes ("a,b" +:+ Demo.newline +:+ "1,2" +:+ Demo.newline))
        /\ ui w'
           = [DocumentOpened dataCsv; DocumentShown dataCsv;
              ErrorMessage "Failed to load CSV. Unknown language id: csv"]).
Proof.
  split.
  - exact (proj1 (openCsvFromS3_reports_editor_failure hiddenEditorHost
                    (Some "s3://bucket1/data.csv") "s3://bucket1/data.csv" "plaintext"
                    [StdoutData (Demo.bytes ("a,b" +:+ Demo.newline)); StderrData "";
                     StdoutData (Demo.bytes ("1,2" +:+ Demo.newline))]
                    (Error "No editor") Demo.emptyWorld Demo.emptyWorld
                    eq_refl eq_refl (conj eq_refl (or_introl eq_refl)) eq_refl)
             eq_refl).
  - apply (proj2 (openCsvFromS3_reports_editor_failure fixedLanguageHost
                    (Some "s3://bucket1/data.csv") "s3://bucket1/data.csv" "plaintext"
                    [StdoutData (Demo.bytes ("a,b" +:+ Demo.newline)); StderrData "";
                     StdoutData (Demo.bytes ("1,2" +:+ Demo.newline))]
                    (Error "Unknown language id: csv") Demo.emptyWorld Demo.emptyWorld
                    eq_refl eq_refl (conj eq_refl (or_introl eq_refl)) eq_refl));
      [reflexivity | discriminate | reflexivity].
Defined.

(** A locator that is not accepted, wherever it came from (argument,
    setting or input box): the one thing that happens is the error message
    with the validation text. *)
Theorem openCsvFromS3_reports_invalid_locator (h : Host) (uriFromInput : option string)
    (locator : string) (w w1 : World) :
  Extension.resolveUri h uriFromInput w = (Returned (Some locator), w1) ->
  JsString.nonEmpty locator = true ->
  JsString.startsWith "s3://" locator = false ->
  Extension.openCsvFromS3 h uriFromInput w
  = (Returned tt,
     logUi (ErrorMessage ("Failed to load CSV. " +:+ Extension.invalidUriMessage)) w1).
Proof.
  intros Hres Hne Hpre.
  rewrite (openCsvFromS3_resolved h _ w w1 locator Hres Hne).
  unfold Extension.loadAndShow, bind, Extension.fetchCsvToTemp, Extension.rejected.
  now rewrite Hne, Hpre.
Qed.

Lemma openCsvFromS3_reports_invalid_locator_witness :
  Extension.openCsvFromS3
    (Demo.host (mkConfig (Some " https://bucket1/data.csv") None None None)
       (Returned None) Demo.twoChunks "" None None)
    None Demo.emptyWorld
  = (Returned tt,
     logUi (ErrorMessage
              "Failed to load CSV. Please provide a valid S3 URI (e.g., s3://bucket/key.csv).")
       Demo.emptyWorld).
Proof.
  exact (openCsvFromS3_reports_invalid_locator
           (Demo.host (mkConfig (Some " https://bucket1/data.csv") None None None)
              (Returned None) Demo.twoChunks "" None None)
           None "https://bucket1/data.csv" Demo.emptyWorld Demo.emptyWorld
           eq_refl eq_refl eq_refl).
Defined.

Lemma loadAndShow_caught (h : Host) (locator : string) (w : World) (e : JsError) :
  fst (match Extension.loadAndShow h locator w with
       | (Thrown e0, w') =>
           (Returned tt, logUi (ErrorMessage ("Failed to load CSV. " +:+ message e0)) w')
       | r => r
       end) <> Thrown e.
Proof. now destruct (Extension.loadAndShow h locator w) as [[[]|e0|] w']. Qed.

(** What the [try] of [openCsvFromS3] covers.  Once the locator is
    resolved (the settings were read, an argument, a setting or the input box
    gave a string), the command does not reject: every error of the
    validation, the transfer and the editor is caught and shown instead.  A
    rejection of the input box comes before the [try] and is not caught: the
    command rejects with it, and nothing is shown but the input box. *)
Theorem openCsvFromS3_catches_what_its_try_covers (h : Host)
    (uriFromInput : option string) (w : World) :
  (forall (locator : string) (w1 : World) (e : JsError),
      Extension.resolveUri h uriFromInput w = (Returned (Some locator), w1) ->
      fst (Extension.openCsvFromS3 h uriFromInput w) <> Thrown e)
  /\ (forall e : JsError,
        JsString.truthy uriFromInput = false ->
        JsString.nonEmpty (Extension.configuredUri h) = false ->
        showInputBox h = Thrown e ->
        Extension.openCsvFromS3 h uriFromInput w = (Thrown e, logUi InputBoxShown w)).
Proof.
  split.
  - intros locator w1 e Hres.
    destruct (JsString.nonEmpty locator) eqn:Hne.
    + rewrite (openCsvFromS3_resolved h _ w w1 locator Hres Hne).
      apply loadAndShow_caught.
    + unfold Extension.openCsvFromS3, bind. rewrite Hres, Hne. discriminate.
  - intros e Harg Hcfg Hbox.
    destruct (resolveUri_cases h uriFromInput w) as (_ & _ & Hres).
    unfold Extension.openCsvFromS3, bind. rewrite (Hres Harg Hcfg), Hbox. reflexivity.
Qed.

Lemma openCsvFromS3_catches_what_its_try_covers_witness :
  fst (Extension.openCsvFromS3 (Demo.plainHost Demo.accessDenied)
         (Some "s3://bucket1/data.csv") Demo.emptyWorld)
    <> Thrown (Error "AWS CLI exited with code 2: Access Denied")
  /\ Extension.openCsvFromS3 brokenInputBox None Demo.emptyWorld
     = (Thrown (Error "Canceled"), logUi InputBoxShown Demo.emptyWorld).
Proof.
  split.
  - exact (proj1 (openCsvFromS3_catches_what_its_try_covers
                    (Demo.plainHost Demo.accessDenied) (Some "s3://bucket1/data.csv")
                    Demo.emptyWorld)
             "s3://bucket1/data.csv" Demo.emptyWorld
             (Error "AWS CLI exited with code 2: Access Denied") eq_refl).
  - exact (proj2 (openCsvFromS3_catches_what_its_try_covers brokenInputBox None
                    Demo.emptyWorld)
             (Error "Canceled") eq_refl eq_refl eq_refl).
Defined.

(** The check of the input box and the check of [fetchCsvToTemp] accept the
    same strings: what the box lets through is never refused afterwards, and
    what it holds back would have been refused. *)
Theorem input_box_and_fetch_accept_the_same (val : string) :
  validateInput val = None <-> Extension.rejected val = false.
Proof.
  unfold validateInput, Extension.rejected.
  destruct (JsString.startsWith "s3://" val) eqn:Hpre.
  - destruct (startsWith_inv _ _ Hpre) as [r ->]. now split.
  - rewrite orb_true_r. split; discriminate.
Qed.

Lemma append_neq (s : string) : s +:+ "x" <> s.
Proof.
  induction s as [|c s IH]; [discriminate |].
  rewrite append_cons. intros [= H]. now apply IH.
Qed.

Lemma resolveUri_frame (h : Host) (uriFromInput : option string) (w : World) :
  spawned (snd (Extension.resolveUri h uriFromInput w)) = spawned w
  /\ commands (snd (Extension.resolveUri h uriFromInput w)) = commands w.
Proof.
  unfold Extension.resolveUri.
  destruct (JsString.truthy uriFromInput); [now split |].
  destruct (JsString.nonEmpty (Extension.configuredUri h)); [now split |].
  unfold bind, effect, await. now destruct (showInputBox h).
Qed.

Lemma loadAndShow_commands (h : Host) (locator : string) (w : World) :
  commands (snd (Extension.loadAndShow h locator w)) = commands w.
Proof.
  unfold Extension.loadAndShow.
  destruct (fetchCsvToTemp_other h locator (Some (Extension.profile h))
              (Some (Extension.region h)) w
              (Extension.tmpPath h locator +:+ "x") (append_neq _)) as [_ Hc].
  unfold bind at 1.
  destruct (Extension.fetchCsvToTemp h locator _ _ w) as [[p|e|] w1]; simpl in *;
    try exact Hc.
  unfold bind at 1, openDocument.
  destruct (openTextDocument h p (files w1 !! p)) as [e|lang]; simpl; [exact Hc |].
  unfold bind at 1, showDocument.
  destruct (showTextDocument h p) as [e|[]]; simpl; [exact Hc |].
  unfold bind at 1.
  destruct (String.eqb lang "csv"); simpl; [exact Hc |].
  unfold setLanguage.
  now destruct (setTextDocumentLanguage h p "csv") as [e|[]].
Qed.

Lemma openCsvFromS3_commands (h : Host) (uriFromInput : option string) (w : World) :
  commands (snd (Extension.openCsvFromS3 h uriFromInput w)) = commands w.
Proof.
  destruct (resolveUri_frame h uriFromInput w) as [_ Hc].
  unfold Extension.openCsvFromS3. unfold bind at 1.
  destruct (Extension.resolveUri h uriFromInput w) as [[[s|]|e|] w1]; simpl in *;
    try exact Hc.
  destruct (JsString.nonEmpty s); simpl; [| exact Hc].
  rewrite tryCatch_shown.
  pose proof (loadAndShow_commands h s w1) as Hl.
  destruct (Extension.loadAndShow h s w1) as [[[]|e|] w2]; simpl in *; congruence.
Qed.

(** Activation always returns, and registers the command exactly once:
    with auto-open on, whatever the run it starts does (fail, wait for a
    child that never ends, be dismissed); in the picker program, it does
    nothing else. *)
Theorem activation_registers_the_command_once (h : Host) (w : World) :
  fst (Extension.activate h w) = Returned tt
  /\ commands (snd (Extension.activate h w))
     = (commands w ++ ["s3CsvViewer.openCsvFromS3"])%list
  /\ Picker.activate w = (Returned tt, logCommand "s3CsvViewer.openCsvFromS3" w).
Proof.
  unfold Extension.activate, bind, effect, Extension.ignoreOutcome.
  destruct (autoOpenOnStartup (config h)) as [[|]|]; simpl;
    repeat split; try reflexivity.
  now rewrite openCsvFromS3_commands.
Qed.

(** One run of [openCsvFromS3] starts no subprocess or exactly one:
    the copy of the locator the run resolved, which passed the validation,
    with the overrides from the settings.  Nothing is retried, whatever
    fails. *)
Theorem openCsvFromS3_starts_at_most_one_subprocess (h : Host)
    (uriFromInput : option string) (w : World) :
  let w' := snd (Extension.openCsvFromS3 h uriFromInput w) in
  spawned w' = spawned w
  \/ exists (locator : string) (w1 : World),
       Extension.resolveUri h uriFromInput w = (Returned (Some locator), w1)
       /\ JsString.startsWith "s3://" locator = true
       /\ spawned w'
          = (spawned w
             ++ [mkSpawn (if String.eqb (platform h) "win32" then "aws.exe" else "aws")
                   ["s3"; "cp"; locator; "-"; "--no-progress"; "--only-show-errors"]
                   (envExtrasOf (Some (Extension.profile h)) (Some (Extension.region h))
                    ∪ environ h)])%list.
Proof.
  intros w'. subst w'.
  destruct (resolveUri_frame h uriFromInput w) as [Hs _].
  destruct (Extension.resolveUri h uriFromInput w) as [[[s|]|e|] w1] eqn:Hres;
    simpl in Hs;
    try (left; unfold Extension.openCsvFromS3, bind; rewrite Hres; exact Hs).
  destruct (Extension.rejected s) eqn:Hrej.
  - left. unfold Extension.openCsvFromS3. unfold bind at 1. rewrite Hres.
    destruct (JsString.nonEmpty s); simpl; [| exact Hs].
    rewrite tryCatch_shown.
    unfold Extension.loadAndShow, bind, Extension.fetchCsvToTemp. now rewrite Hrej.
  - right. exists s, w1. split; [reflexivity |]. split.
    + unfold Extension.rejected in Hrej. apply orb_false_elim in Hrej as [_ Hpre].
      now apply negb_false_iff in Hpre.
    + exact (openCsvFromS3_copies h uriFromInput w w1 s Hres Hrej).
Qed.

(** ** The picker *)

(** The body of the [try] of [pickAndOpenS3File]. *)
Definition pickBody (h : Host) : M unit :=
  (buckets <- Picker.listBuckets h (pickerEnv h) ;;
   bucket <- Picker.quickPick h buckets bucketPrompt ;;
   if negb (JsString.truthy bucket) then ret tt
   else
     let bucket := default "" bucket in
     keys <- Picker.listKeys h bucket (pickerEnv h) ;;
     key <- Picker.quickPick h keys (keyPrompt bucket) ;;
     if negb (JsString.truthy key) then ret tt
     else
       let key := default "" key in
       Picker.openS3FileInEditor h (pickedUri bucket key)
         (Picker.trimmedSetting (awsProfile (config h)))
         (Picker.trimmedSetting (awsRegion (config h))))%async.

Lemma pickAndOpenS3File_unfold (h : Host) (w : World) :
  Picker.pickAndOpenS3File h w
  = match pickBody h w with
    | (Thrown e, w') => (Returned tt, logUi (ErrorMessage ("Error: " +:+ message e)) w')
    | r => r
    end.
Proof.
  unfold Picker.pickAndOpenS3File. fold (pickerEnv h).
  exact (tryCatch_shown (pickBody h) (fun e => "Error: " +:+ message e) w).
Qed.

Lemma quickPick_frame (h : Host) (items : list Js.value) (prompt : string) (w : World) :
  Picker.quickPick h items prompt w
  = (showQuickPick h items prompt, logUi (QuickPickShown items prompt) w).
Proof. reflexivity. Qed.

(** The subprocesses of the body, in the order they are started. *)
Lemma pickBody_spawned (h : Host) (w : World) :
  let env := pickerEnv h in
  spawned (snd (pickBody h w)) = (spawned w ++ [bucketsCall h env])%list
  \/ exists (buckets : list Js.value) (bucket : string),
       fst (Picker.listBuckets h env w) = Returned buckets
       /\ showQuickPick h buckets bucketPrompt = Returned (Some bucket)
       /\ JsString.nonEmpty bucket = true
       /\ (spawned (snd (pickBody h w))
           = (spawned w ++ [bucketsCall h env; keysCall h bucket env])%list
           \/ exists (keys : list Js.value) (key : string),
                fst (Picker.listKeys h bucket env (afterBucketPick h w buckets))
                  = Returned keys
                /\ showQuickPick h keys (keyPrompt bucket) = Returned (Some key)
                /\ JsString.nonEmpty key = true
                /\ spawned (snd (pickBody h w))
                   = (spawned w ++ [bucketsCall h env; keysCall h bucket env;
                                    copyCall h ("s3://" +:+ bucket +:+ "/" +:+ key) env])%list).
Proof.
  intros env.
  remember (pickBody h w) as r eqn:Er. unfold pickBody in Er. fold env in Er.
  unfold bind at 1 in Er.
  pose proof (listBuckets_frame h env w) as Hb.
  destruct (Picker.listBuckets h env w) as [[buckets|e|] w1] eqn:Hlist; simpl in Hb; subst w1;
    try (left; subst r; reflexivity).
  unfold bind at 1 in Er. rewrite quickPick_frame in Er.
  destruct (showQuickPick h buckets bucketPrompt) as [[bucket|]|e|] eqn:Hpick;
    try (left; subst r; reflexivity).
  simpl JsString.truthy in Er.
  destruct (JsString.nonEmpty bucket) eqn:Hbucket; simpl in Er; rewrite ?Hbucket in Er;
    simpl in Er;
    [| left; subst r; reflexivity].
  right. exists buckets, bucket.
  split; [reflexivity |]. split; [exact Hpick |]. split; [exact Hbucket |].
  unfold bind at 1 in Er.
  unfold afterBucketPick. fold env.
  match type of Er with
  | context [Picker.listKeys h bucket env ?w0] =>
      pose proof (listKeys_frame h bucket env w0) as Hk;
      destruct (Picker.listKeys h bucket env w0) as [[keys|e|] w2] eqn:Hkeys;
      simpl in Hk; subst w2
  end; try (left; subst r; simpl; now rewrite <- app_assoc).
  unfold bind at 1 in Er. rewrite quickPick_frame in Er.
  destruct (showQuickPick h keys (keyPrompt bucket)) as [[key|]|e|] eqn:Hpick2;
    try (left; subst r; simpl; now rewrite <- app_assoc).
  simpl JsString.truthy in Er.
  destruct (JsString.nonEmpty key) eqn:Hkey; simpl in Er; rewrite ?Hkey in Er;
    simpl in Er;
    [| left; subst r; simpl; now rewrite <- app_assoc].
  right. exists keys, key.
  split; [reflexivity |]. split; [exact Hpick2 |]. split; [exact Hkey |].
  subst r. rewrite openS3FileInEditor_spawned. fold env. simpl.
  now rewrite <- !app_assoc.
Qed.

(** The picker starts its subprocesses in one order only: [list-buckets];
    then, only when the pick among the listed buckets gave a non-empty
    bucket, [list-objects-v2] on that bucket; then, only when the pick among
    the listed keys gave a non-empty key, the copy of [s3://<bucket>/<key>]
    for that bucket and that key.  It stops after any of them and repeats
    none. *)
Theorem pickAndOpenS3File_subprocess_sequence (h : Host) (w : World) :
  let env := pickerEnv h in
  let w' := snd (Picker.pickAndOpenS3File h w) in
  spawned w' = (spawned w ++ [bucketsCall h env])%list
  \/ exists (buckets : list Js.value) (bucket : string),
       fst (Picker.listBuckets h env w) = Returned buckets
       /\ showQuickPick h buckets bucketPrompt = Returned (Some bucket)
       /\ JsString.nonEmpty bucket = true
       /\ (spawned w' = (spawned w ++ [bucketsCall h env; keysCall h bucket env])%list
           \/ exists (keys : list Js.value) (key : string),
                fst (Picker.listKeys h bucket env (afterBucketPick h w buckets))
                  = Returned keys
                /\ showQuickPick h keys (keyPrompt bucket) = Returned (Some key)
                /\ JsString.nonEmpty key = true
                /\ spawned w'
                   = (spawned w ++ [bucketsCall h env; keysCall h bucket env;
                                    copyCall h ("s3://" +:+ bucket +:+ "/" +:+ key) env])%list).
Proof.
  intros env w'. subst w'. rewrite pickAndOpenS3File_unfold.
  pose proof (pickBody_spawned h w) as Hseq. fold env in Hseq. cbv zeta in Hseq.
  destruct (pickBody h w) as [[[]|e|] w1]; simpl in *; exact Hseq.
Qed.

Lemma mapField_strings (name : string) (items : list Js.value) (names : list string)
    (w : World) :
  Forall2 (hasString name) items names ->
  Picker.mapField name items w = (Returned (map Js.Str names), w).
Proof.
  induction 1 as [|item value items names [fields [-> Hvalue]] _ IH]; [reflexivity |].
  simpl. unfold bind at 1. simpl. unfold bind at 1. rewrite IH. simpl.
  now rewrite Hvalue.
Qed.

(** The two list extractions keep every name, in the order of the answer:
    the bucket names are the [Name] of the entries of [Buckets], the keys the
    [Key] of the entries of [Contents]; other fields of the answer and of the
    entries do not matter. *)
Theorem listings_keep_names_in_order (fields : list (string * Js.value))
    (items : list Js.value) (names : list string) (w : World) :
  (Js.lookupField "Buckets" fields = Js.Array items ->
   Forall2 (hasString "Name") items names ->
   Picker.bucketNames (Js.Object fields) w = (Returned (map Js.Str names), w))
  /\ (Js.lookupField "Contents" fields = Js.Array items ->
      Forall2 (hasString "Key") items names ->
      Picker.objectKeys (Js.Object fields) w = (Returned (map Js.Str names), w)).
Proof.
  split; intros Hfield Hitems.
  - unfold Picker.bucketNames, bind, Picker.getField, ret. rewrite Hfield. simpl.
    now apply mapField_strings.
  - unfold Picker.objectKeys, bind, Picker.getField, ret. rewrite Hfield. simpl.
    now apply mapField_strings.
Qed.

Lemma listings_keep_names_in_order_witness :
  Picker.bucketNames Demo.bucketsValue Demo.emptyWorld
  = (Returned [Js.Str "a"; Js.Str "b"], Demo.emptyWorld).
Proof.
  apply (proj1 (listings_keep_names_in_order
                  [("Buckets", Js.Array [Js.Object [("Name", Js.Str "a")];
                                         Js.Object [("Name", Js.Str "b")]])]
                  [Js.Object [("Name", Js.Str "a")]; Js.Object [("Name", Js.Str "b")]]
                  ["a"; "b"] Demo.emptyWorld)).
  - reflexivity.
  - repeat constructor; eexists; (split; [reflexivity | reflexivity]).
Defined.

(** When [list-buckets] ends with an error, the picker shows it, with the
    text the child wrote to stderr, and does nothing else: no pick is shown
    and no other subprocess is started. *)
Theorem picker_reports_failed_bucket_listing (h : Host) (w : World) (msg : string) :
  let r :=
    execFileResult h (awsCmdName h) ["s3api"; "list-buckets"; "--output"; "json"]
      (mergedEnv h (pickerEnv h)) in
  exec_error r = Some msg ->
  Picker.pickAndOpenS3File h w
  = (Returned tt,
     logUi (ErrorMessage ("Error: AWS CLI error: " +:+ msg +:+ Demo.newline
                          +:+ "STDERR: " +:+ exec_stderr r))
       (logSpawn (bucketsCall h (pickerEnv h)) w)).
Proof.
  intros r Herr. rewrite pickAndOpenS3File_unfold.
  unfold pickBody, Picker.listBuckets, runAwsCli. unfold bind at 1. unfold bind at 1.
  unfold bind at 1. unfold effect at 1. fold r. rewrite Herr. reflexivity.
Qed.

(** A host whose [aws] binary is missing. *)
Definition noCliHost : Host :=
  mkHost "win32" ∅ "/tmp" 1700000000000 Demo.noConfig
    (fun _ _ _ => []) (fun _ _ _ => mkExec (Some "spawn aws.exe ENOENT") "" "")
    Demo.parse (Returned None) (fun _ _ => Returned None)
    (fun _ _ => inr "csv") (fun _ => inr tt) (fun _ _ => inr tt).

Lemma picker_reports_failed_bucket_listing_witness :
  Picker.pickAndOpenS3File noCliHost Demo.emptyWorld
  = (Returned tt,
     mkWorld ∅
       [mkSpawn "aws.exe" ["s3api"; "list-buckets"; "--output"; "json"] ∅] []
       [ErrorMessage ("Error: AWS CLI error: spawn aws.exe ENOENT" +:+ Demo.newline
                      +:+ "STDERR: ")]
       []).
Proof.
  exact (picker_reports_failed_bucket_listing noCliHost Demo.emptyWorld
           "spawn aws.exe ENOENT" eq_refl).
Defined.

(** An answer of [list-buckets] that cannot be decoded, or that decodes to
    an object without [Buckets], ends in an error message and no pick;
    unlike a missing [Contents] in the answer of [list-objects-v2], a missing
    [Buckets] is not read as an empty list. *)
Theorem picker_reports_unusable_bucket_listing (h : Host) (w : World) :
  let r :=
    execFileResult h (awsCmdName h) ["s3api"; "list-buckets"; "--output"; "json"]
      (mergedEnv h (pickerEnv h)) in
  exec_error r = None ->
  (forall e,
      JSON_parse h (exec_stdout r) = inl e ->
      Picker.pickAndOpenS3File h w
      = (Returned tt,
         logUi (ErrorMessage ("Error: " +:+ message e))
           (logSpawn (bucketsCall h (pickerEnv h)) w)))
  /\ (forall fields,
        JSON_parse h (exec_stdout r) = inr (Js.Object fields) ->
        Js.lookupField "Buckets" fields = Js.Undefined ->
        Picker.pickAndOpenS3File h w
        = (Returned tt,
           logUi (ErrorMessage ("Error: " +:+ message (cannotRead "undefined" "map")))
             (logSpawn (bucketsCall h (pickerEnv h)) w))).
Proof.
  intros r Herr.
  assert (Hrun : runAwsCli h ["s3api"; "list-buckets"; "--output"; "json"] (pickerEnv h) w
                 = (Returned (exec_stdout r), logSpawn (bucketsCall h (pickerEnv h)) w)).
  { unfold runAwsCli, bind, effect. fold r. now rewrite Herr. }
  split.
  - intros e Hparse. rewrite pickAndOpenS3File_unfold.
    unfold pickBody, Picker.listBuckets. unfold bind at 1. unfold bind at 1.
    rewrite Hrun. unfold bind at 1. now rewrite Hparse.
  - intros fields Hparse Hmissing. rewrite pickAndOpenS3File_unfold.
    unfold pickBody, Picker.listBuckets. unfold bind at 1. unfold bind at 1.
    rewrite Hrun. unfold bind at 1. rewrite Hparse. simpl.
    unfold Picker.bucketNames, bind, Picker.getField, ret. now rewrite Hmissing.
Qed.

(** A host whose [aws] prints an answer without [Buckets]. *)
Definition noBucketsHost : Host :=
  mkHost "linux" ∅ "/tmp" 1700000000000 Demo.noConfig
    (fun _ _ _ => []) (fun _ _ _ => mkExec None Demo.noObjectsJson "")
    Demo.parse (Returned None) (fun _ _ => Returned None)
    (fun _ _ => inr "csv") (fun _ => inr tt) (fun _ _ => inr tt).

Lemma picker_reports_unusable_bucket_listing_witness :
  Picker.pickAndOpenS3File noBucketsHost Demo.emptyWorld
  = (Returned tt,
     logUi (ErrorMessage "Error: Cannot read properties of undefined (reading 'map')")
       (logSpawn (bucketsCall noBucketsHost ∅) Demo.emptyWorld)).
Proof.
  exact (proj2 (picker_reports_unusable_bucket_listing noBucketsHost Demo.emptyWorld
                  eq_refl)
           [("RequestCharged", Js.Null)] eq_refl eq_refl).
Defined.

(** Buckets listed, a bucket and a key picked, the copy runs to its end
    with exit code 0 and the editor opens and shows the document: the picker
    copies
    [s3://<bucket>/<key>] (a locator the validation of [fetchCsvToTemp] would
    accept) into its temporary file, opens and shows it, and names the
    locator in the status bar.  Unlike [openCsvFromS3] it never sets the
    language of the document. *)
Theorem pickAndOpenS3File_opens_the_picked_object (h : Host) (w w1 w2 : World)
    (buckets keys : list Js.value) (bucket key languageId : string)
    (evs : list ChildEvent) :
  let uri := "s3://" +:+ bucket +:+ "/" +:+ key in
  let tmp := pickerTmpPath h uri in
  Picker.listBuckets h (pickerEnv h) w = (Returned buckets, w1) ->
  showQuickPick h buckets bucketPrompt = Returned (Some bucket) ->
  JsString.nonEmpty bucket = true ->
  Picker.listKeys h bucket (pickerEnv h) (logUi (QuickPickShown buckets bucketPrompt) w1)
    = (Returned keys, w2) ->
  showQuickPick h keys (keyPrompt bucket) = Returned (Some key) ->
  JsString.nonEmpty key = true ->
  runsToEnd (copyEvents h uri (pickerEnv h)) evs (Some 0%Z) ->
  openTextDocument h tmp (Some (stdoutBytes evs)) = inr languageId ->
  showTextDocument h tmp = inr tt ->
  exists w',
    Picker.pickAndOpenS3File h w = (Returned tt, w')
    /\ Extension.rejected uri = false
    /\ files w' !! tmp = Some (stdoutBytes evs)
    /\ spawned w'
       = (spawned w ++ [bucketsCall h (pickerEnv h); keysCall h bucket (pickerEnv h);
                        copyCall h uri (pickerEnv h)])%list
    /\ ui w'
       = (ui w ++ [QuickPickShown buckets bucketPrompt;
                   QuickPickShown keys (keyPrompt bucket);
                   DocumentOpened tmp; DocumentShown tmp;
                   StatusBarMessage ("S3 File loaded: " +:+ uri) 5000])%list.
Proof.
  intros uri tmp Hlist Hpick Hb Hkeys Hpick2 Hk Hrun Hopen Hshow.
  pose proof (listBuckets_frame h (pickerEnv h) w) as Hw1.
  rewrite Hlist in Hw1. simpl in Hw1. subst w1.
  pose proof (listKeys_frame h bucket (pickerEnv h)
                (logUi (QuickPickShown buckets bucketPrompt)
                   (logSpawn (bucketsCall h (pickerEnv h)) w))) as Hw2.
  rewrite Hkeys in Hw2. simpl in Hw2. subst w2.
  rewrite pickAndOpenS3File_unfold. unfold pickBody.
  unfold bind at 1. rewrite Hlist.
  unfold bind at 1. rewrite quickPick_frame, Hpick. simpl. rewrite Hb. simpl.
  unfold bind at 1. rewrite Hkeys.
  unfold bind at 1. rewrite quickPick_frame, Hpick2. simpl. rewrite Hk. simpl.
  unfold pickedUri. fold uri.
  unfold Picker.openS3FileInEditor. fold (pickerEnv h). fold (pickerTmpPath h uri).
  fold tmp. unfold bind at 1.
  rewrite (awsS3CpToFile_runsToEnd h uri tmp (pickerEnv h) evs (Some 0%Z) _ Hrun).
  change (exitOutcome (Some 0%Z) (stderrText evs)) with (Returned tt).
  unfold bind at 1, openDocument.
  match goal with
  | |- context [files ?w0 !! tmp] =>
      assert (Hfile : files w0 !! tmp = Some (stdoutBytes evs))
        by (unfold afterTransfer; simpl; apply lookup_insert_eq);
      rewrite Hfile
  end.
  rewrite Hopen. unfold bind at 1, showDocument. rewrite Hshow.
  unfold bind, effect. simpl.
  eexists. split; [reflexivity |]. split; [| split; [| split]].
  - unfold Extension.rejected, uri. now rewrite startsWith_append.
  - apply lookup_insert_eq.
  - cbn [spawned logUi setFiles logSpawn afterTransfer]. now rewrite <- !app_assoc.
  - cbn [ui logUi setFiles logSpawn afterTransfer]. now rewrite <- !app_assoc.
Qed.

Lemma pickAndOpenS3File_opens_the_picked_object_witness :
  let h := Demo.host Demo.noConfig (Returned None) Demo.twoChunks Demo.objectsJson
             (Some 1) (Some 0) in
  exists w',
    Picker.pickAndOpenS3File h Demo.emptyWorld = (Returned tt, w')
    /\ Extension.rejected "s3://b/x.csv" = false
    /\ files w' !! "/tmp/s3-viewer-1700000000000-x.csv"
       = Some (Demo.bytes ("a,b" +:+ Demo.newline +:+ "1,2" +:+ Demo.newline))
    /\ spawned w'
       = [bucketsCall h ∅; keysCall h "b" ∅;
          mkSpawn "aws"
            ["s3"; "cp"; "s3://b/x.csv"; "-"; "--no-progress"; "--only-show-errors"]
            {[ "HOME" := "/home/u" ]}]
    /\ ui w'
       = [QuickPickShown twoBuckets bucketPrompt;
          QuickPickShown [Js.Str "x.csv"] (keyPrompt "b");
          DocumentOpened "/tmp/s3-viewer-1700000000000-x.csv";
          DocumentShown "/tmp/s3-viewer-1700000000000-x.csv";
          StatusBarMessage "S3 File loaded: s3://b/x.csv" 5000].
Proof.
  intros h.
  exact (pickAndOpenS3File_opens_the_picked_object h Demo.emptyWorld
           (logSpawn (bucketsCall h ∅) Demo.emptyWorld)
           (logSpawn (keysCall h "b" ∅)
              (logUi (QuickPickShown twoBuckets bucketPrompt)
                 (logSpawn (bucketsCall h ∅) Demo.emptyWorld)))
           twoBuckets [Js.Str "x.csv"] "b" "x.csv" "plaintext"
           [StdoutData (Demo.bytes ("a,b" +:+ Demo.newline)); StderrData "";
            StdoutData (Demo.bytes ("1,2" +:+ Demo.newline))]
           eq_refl eq_refl eq_refl eq_refl eq_refl eq_refl
           (conj eq_refl (or_introl eq_refl)) eq_refl eq_refl).
Defined.

(** ** Settings are read trimmed *)

Lemma trimStart_split (s : string) :
  exists a, s = a +:+ JsString.trimStart s /\ JsString.whitespaceOnly a = true.
Proof.
  induction s as [|c s (a & Ha & Hws)]; [now exists "" |].
  simpl. destruct (JsString.isWhiteSpace c) eqn:Hc.
  - exists (String c a). rewrite append_cons, <- Ha. simpl. now rewrite Hc, Hws.
  - now exists "".
Qed.

Lemma trimStart_first (s : string) (c : ascii) :
  firstChar (JsString.trimStart s) = Some c -> JsString.isWhiteSpace c = false.
Proof.
  induction s as [|x s IH]; [discriminate |].
  simpl. destruct (JsString.isWhiteSpace x) eqn:Hx; [exact IH |].
  now intros [= <-].
Qed.

Lemma trimEnd_split (s : string) :
  exists b, s = JsString.trimEnd s +:+ b /\ JsString.whitespaceOnly b = true.
Proof.
  induction s as [|c s (b & Hb & Hws)]; [now exists "" |].
  simpl. destruct (JsString.trimEnd s) as [|x r] eqn:Er.
  - destruct (JsString.isWhiteSpace c) eqn:Hc.
    + exists (String c b). change ("" +:+ b) with b in Hb. subst s.
      split; [reflexivity |]. simpl. now rewrite Hc, Hws.
    + exists b. change ("" +:+ b) with b in Hb. subst s. now split.
  - exists b. rewrite append_cons. now rewrite <- Hb.
Qed.

Lemma trimEnd_last (s : string) (c : ascii) :
  lastChar (JsString.trimEnd s) = Some c -> JsString.isWhiteSpace c = false.
Proof.
  unfold lastChar. induction s as [|x s IH]; [discriminate |].
  simpl. destruct (JsString.trimEnd s) as [|y r] eqn:Er.
  - destruct (JsString.isWhiteSpace x) eqn:Hx; [discriminate |].
    simpl. now intros [= <-].
  - intros H. apply IH. exact H.
Qed.

Lemma trimEnd_first (s : string) (c : ascii) :
  firstChar s = Some c -> JsString.isWhiteSpace c = false ->
  firstChar (JsString.trimEnd s) = Some c.
Proof.
  destruct s as [|x s]; [discriminate |]. intros [= ->] Hc.
  simpl. destruct (JsString.trimEnd s); [now rewrite Hc | reflexivity].
Qed.

(** A setting is used without the white space around it and otherwise
    unchanged: the value the programs work with, when it is not empty,
    neither starts nor ends with white space, and the setting is that value
    with white space before and after it.  A setting that is not set, or
    blank, gives the empty string. *)
Theorem settings_are_trimmed (setting : string) :
  let value := Extension.trimmedSetting (Some setting) in
  (exists before after,
      setting = before +:+ value +:+ after
      /\ JsString.whitespaceOnly before = true
      /\ JsString.whitespaceOnly after = true)
  /\ (forall c, firstChar value = Some c -> JsString.isWhiteSpace c = false)
  /\ (forall c, lastChar value = Some c -> JsString.isWhiteSpace c = false)
  /\ Picker.trimmedSetting (Some setting) = Some value
  /\ Extension.trimmedSetting None = "".
Proof.
  intros value.
  assert (Hvalue : value = JsString.trim setting).
  { unfold value, Extension.trimmedSetting, JsString.orElse.
    now destruct (JsString.trim setting). }
  rewrite Hvalue. unfold JsString.trim.
  destruct (trimStart_split setting) as (a & Ha & Hwa).
  destruct (trimEnd_split (JsString.trimStart setting)) as (b & Hb & Hwb).
  split; [| split; [| split; [| split]]].
  - exists a, b. split; [| now split]. now rewrite <- Hb.
  - intros c Hc.
    destruct (JsString.trimStart setting) as [|x r] eqn:Es; [discriminate Hc |].
    assert (Hx : JsString.isWhiteSpace x = false)
      by (apply (trimStart_first setting); now rewrite Es).
    rewrite (trimEnd_first (String x r) x eq_refl Hx) in Hc. now injection Hc as <-.
  - apply trimEnd_last.
  - reflexivity.
  - reflexivity.
Qed.
